(** * NeuroLabel annotation front end: App.tsx and the annotation canvas

    A shallow embedding of the React component [App] (src/frontend/src/App.tsx)
    and of the [AnnotationCanvas] component (second half of
    src/frontend/src/components/Sidebar.tsx), with the properties the
    specification states about them.

    Conventions of the embedding:
    - a JavaScript [number] that carries a coordinate, a scale or a
      confidence is an exact rational ([Q]); IEEE rounding is outside the
      model, so an equation between computed numbers is stated with [==];
    - a [number] that is a server-side image id is an integer ([Z]);
    - [T | null] is [option T]; a truthiness test on it is written out;
    - React state is one record, every [useState] setter is a function on
      that record; an [async] handler takes the outcome of its request as an
      argument ([Some] payload, or [None] when the request throws) and runs
      to completion without interleaving. *)

From Stdlib Require Import QArith ZArith List String Bool Lia Lqa.
From Stdlib Require Import DecimalString.
Import ListNotations.

Local Open Scope string_scope.
Local Open Scope Q_scope.
Local Open Scope list_scope.

(** ** Numbers *)

(** JavaScript [a < b], [a > b] and [a >= b] on numbers. *)
Definition Qltb (a b : Q) : bool := negb (Qle_bool b a).
Definition Qgtb (a b : Q) : bool := Qltb b a.
Definition Qgeb (a b : Q) : bool := Qle_bool b a.

(** ** Data model (interfaces of App.tsx) *)

Record BoundingBox : Type := {
  x1 : Q;
  y1 : Q;
  x2 : Q;
  y2 : Q
}.

Record Detection : Type := {
  id : string;
  label : string;
  confidence : Q;
  box : BoundingBox
}.

(** What the server sends for one detection: a [Detection] without the
    client-side id. *)
Record ServerDetection : Type := {
  s_label : string;
  s_confidence : Q;
  s_box : BoundingBox
}.

Module HistoryItem.
Record t : Type := {
  id : Z;
  filename : string;
  timestamp : string;
  detection_count : Z
}.
End HistoryItem.

Record Dimensions : Type := { dim_width : Q; dim_height : Q }.

(** A browser [File] is opaque to the component; only its identity matters. *)
Definition File : Type := string.

(** The [useState] cells of [App]. *)
Record AppState : Type := {
  file : option File;
  imageSrc : option string;
  detections : list Detection;
  isLoading : bool;
  imageDimensions : Dimensions;
  history : list HistoryItem.t;
  currentImageId : option Z;
  selectedId : option string;
  confidenceThreshold : Q;
  enhanceAccuracy : bool
}.

(** *** State setters *)

Definition setFile (v : option File) (s : AppState) : AppState :=
  {| file := v; imageSrc := imageSrc s; detections := detections s;
     isLoading := isLoading s; imageDimensions := imageDimensions s;
     history := history s; currentImageId := currentImageId s;
     selectedId := selectedId s; confidenceThreshold := confidenceThreshold s;
     enhanceAccuracy := enhanceAccuracy s |}.

Definition setImageSrc (v : option string) (s : AppState) : AppState :=
  {| file := file s; imageSrc := v; detections := detections s;
     isLoading := isLoading s; imageDimensions := imageDimensions s;
     history := history s; currentImageId := currentImageId s;
     selectedId := selectedId s; confidenceThreshold := confidenceThreshold s;
     enhanceAccuracy := enhanceAccuracy s |}.

Definition setDetections (v : list Detection) (s : AppState) : AppState :=
  {| file := file s; imageSrc := imageSrc s; detections := v;
     isLoading := isLoading s; imageDimensions := imageDimensions s;
     history := history s; currentImageId := currentImageId s;
     selectedId := selectedId s; confidenceThreshold := confidenceThreshold s;
     enhanceAccuracy := enhanceAccuracy s |}.

Definition setIsLoading (v : bool) (s : AppState) : AppState :=
  {| file := file s; imageSrc := imageSrc s; detections := detections s;
     isLoading := v; imageDimensions := imageDimensions s;
     history := history s; currentImageId := currentImageId s;
     selectedId := selectedId s; confidenceThreshold := confidenceThreshold s;
     enhanceAccuracy := enhanceAccuracy s |}.

Definition setImageDimensions (v : Dimensions) (s : AppState) : AppState :=
  {| file := file s; imageSrc := imageSrc s; detections := detections s;
     isLoading := isLoading s; imageDimensions := v;
     history := history s; currentImageId := currentImageId s;
     selectedId := selectedId s; confidenceThreshold := confidenceThreshold s;
     enhanceAccuracy := enhanceAccuracy s |}.

Definition setHistory (v : list HistoryItem.t) (s : AppState) : AppState :=
  {| file := file s; imageSrc := imageSrc s; detections := detections s;
     isLoading := isLoading s; imageDimensions := imageDimensions s;
     history := v; currentImageId := currentImageId s;
     selectedId := selectedId s; confidenceThreshold := confidenceThreshold s;
     enhanceAccuracy := enhanceAccuracy s |}.

Definition setCurrentImageId (v : option Z) (s : AppState) : AppState :=
  {| file := file s; imageSrc := imageSrc s; detections := detections s;
     isLoading := isLoading s; imageDimensions := imageDimensions s;
     history := history s; currentImageId := v;
     selectedId := selectedId s; confidenceThreshold := confidenceThreshold s;
     enhanceAccuracy := enhanceAccuracy s |}.

Definition selectShape (v : option string) (s : AppState) : AppState :=
  {| file := file s; imageSrc := imageSrc s; detections := detections s;
     isLoading := isLoading s; imageDimensions := imageDimensions s;
     history := history s; currentImageId := currentImageId s;
     selectedId := v; confidenceThreshold := confidenceThreshold s;
     enhanceAccuracy := enhanceAccuracy s |}.

Definition setConfidenceThreshold (v : Q) (s : AppState) : AppState :=
  {| file := file s; imageSrc := imageSrc s; detections := detections s;
     isLoading := isLoading s; imageDimensions := imageDimensions s;
     history := history s; currentImageId := currentImageId s;
     selectedId := selectedId s; confidenceThreshold := v;
     enhanceAccuracy := enhanceAccuracy s |}.

Definition setEnhanceAccuracy (v : bool) (s : AppState) : AppState :=
  {| file := file s; imageSrc := imageSrc s; detections := detections s;
     isLoading := isLoading s; imageDimensions := imageDimensions s;
     history := history s; currentImageId := currentImageId s;
     selectedId := selectedId s; confidenceThreshold := confidenceThreshold s;
     enhanceAccuracy := v |}.

(** The state [App] mounts with. *)
Definition initialState : AppState :=
  {| file := None; imageSrc := None; detections := [];
     isLoading := false;
     imageDimensions := {| dim_width := 0; dim_height := 0 |};
     history := []; currentImageId := None; selectedId := None;
     confidenceThreshold := 0.25; enhanceAccuracy := false |}.

(** ** App.tsx: handlers *)

(** [e.key === 'Delete' || e.key === 'Backspace'] *)
Definition isDeleteKey (key : string) : bool :=
  (key =? "Delete") || (key =? "Backspace").

(** [handleKeyDown]: the test [&& selectedId] is a truthiness test on
    [string | null], false on [null] and on the empty string. *)
Definition handleKeyDown (key : string) (st : AppState) : AppState :=
  match selectedId st with
  | Some sel =>
      if isDeleteKey key && negb (sel =? "") then
        selectShape None
          (setDetections
             (filter (fun d => negb (id d =? sel)) (detections st)) st)
      else st
  | None => st
  end.

(** [fetchHistory]: [res] is the body of [GET /history], [None] when the
    request throws (the error is only logged). *)
Definition fetchHistory (res : option (list HistoryItem.t)) (st : AppState)
  : AppState :=
  match res with
  | Some data => setHistory data st
  | None => st
  end.

(** [data.map(d => ({ ...d, id: generateId() }))]. [generateId] draws from
    [Math.random]; [gen k] stands for the value its [k]-th call returns. *)
Fixpoint mappedDetectionsFrom (gen : nat -> string) (k : nat)
  (data : list ServerDetection) : list Detection :=
  match data with
  | [] => []
  | d :: rest =>
      {| id := gen k; label := s_label d; confidence := s_confidence d;
         box := s_box d |} :: mappedDetectionsFrom gen (S k) rest
  end.

Definition mappedDetections (gen : nat -> string)
  (data : list ServerDetection) : list Detection :=
  mappedDetectionsFrom gen 0 data.

(** [`http://127.0.0.1:8000/images/${id}`] *)
Definition imageUrl (i : Z) : string :=
  "http://127.0.0.1:8000/images/" ++ NilZero.string_of_int (Z.to_int i).

(** [loadHistoryItem]: [res] is the body of [GET /annotations/{id}], [None]
    when the request throws. [setCurrentImageId] runs before the [try];
    [setImageSrc] runs inside it but before the request is awaited. *)
Definition loadHistoryItem (gen : nat -> string) (i : Z)
  (res : option (list ServerDetection)) (st : AppState) : AppState :=
  let st := setIsLoading true st in
  let st := setCurrentImageId (Some i) st in
  let st := setImageSrc (Some (imageUrl i)) st in
  let st :=
    match res with
    | Some data =>
        let st := setDetections (mappedDetections gen data) st in
        let st := setFile None st in
        setImageDimensions {| dim_width := 0; dim_height := 0 |} st
    | None => st (* console.error; alert("Could not load history item.") *)
    end in
  setIsLoading false st.

(** [deleteHistoryItem]: [ok] tells whether [DELETE /images/{id}] succeeded. *)
Definition deleteHistoryItem (i : Z) (ok : bool) (st : AppState) : AppState :=
  if ok then
    let st' :=
      setHistory
        (filter (fun h => negb (HistoryItem.id h =? i)%Z) (history st)) st in
    match currentImageId st with
    | Some c =>
        if (c =? i)%Z then
          setCurrentImageId None (setDetections [] (setImageSrc None st'))
        else st'
    | None => st'
    end
  else st (* console.error; alert("Failed to delete item.") *).

(** [handleFileChange]: [files] is [e.target.files]; [objectUrl] is what
    [URL.createObjectURL] returns for the chosen file. *)
Definition handleFileChange (files : list File) (objectUrl : string)
  (st : AppState) : AppState :=
  match files with
  | selectedFile :: _ =>
      let st := setFile (Some selectedFile) st in
      let st := setImageSrc (Some objectUrl) st in
      let st := setDetections [] st in
      let st := setImageDimensions {| dim_width := 0; dim_height := 0 |} st in
      setCurrentImageId None st
  | [] => st
  end.

(** Body of the [POST /detect] response. *)
Record DetectResponse : Type := {
  image_id : Z;
  r_detections : list ServerDetection
}.

(** [handleDetect]: [response] is the outcome of [POST /detect]; [hist] the
    outcome of the [fetchHistory] it starts on success. *)
Definition handleDetect (gen : nat -> string)
  (response : option DetectResponse) (hist : option (list HistoryItem.t))
  (st : AppState) : AppState :=
  match file st with
  | None => st
  | Some _ =>
      let st := setIsLoading true st in
      let st :=
        match response with
        | Some data =>
            let st :=
              setDetections (mappedDetections gen (r_detections data)) st in
            let st := setCurrentImageId (Some (image_id data)) st in
            fetchHistory hist st
        | None => st (* console.error; alert('Failed to detect objects.') *)
        end in
      setIsLoading false st
  end.

(** [saveAnnotations]: [!currentImageId] holds for [null] and for [0]; [ok]
    tells whether [PUT /annotations/{id}] succeeded. *)
Definition saveAnnotations (ok : bool) (hist : option (list HistoryItem.t))
  (st : AppState) : AppState :=
  match currentImageId st with
  | None => st
  | Some c =>
      if (c =? 0)%Z then st
      else if ok then fetchHistory hist st (* alert("Annotations saved!") *)
      else st (* console.error; alert("Failed to save annotations.") *)
  end.

(** [detections.filter(d => d.confidence >= confidenceThreshold)] *)
Definition visibleDetections (st : AppState) : list Detection :=
  filter (fun d => Qgeb (confidence d) (confidenceThreshold st))
         (detections st).

(** *** Export *)

(** The value [JSON.stringify] walks: objects keep their keys in insertion
    order. *)
#[local] Set Warnings "-register-all".
Inductive JSON : Type :=
| JNumber (q : Q)
| JString (s : string)
| JArray (items : list JSON)
| JObject (members : list (string * JSON)).
#[local] Set Warnings "register-all".

Definition jsonOfBox (b : BoundingBox) : JSON :=
  JObject [("x1", JNumber (x1 b)); ("y1", JNumber (y1 b));
           ("x2", JNumber (x2 b)); ("y2", JNumber (y2 b))].

(** A detection object is built as [{ ...d, id: generateId() }] from the
    server's [{ label, confidence, box }]; all four own properties are
    enumerable, so all four are serialised. *)
Definition jsonOfDetection (d : Detection) : JSON :=
  JObject [("label", JString (label d));
           ("confidence", JNumber (confidence d));
           ("box", jsonOfBox (box d));
           ("id", JString (id d))].

(** [exportData]: the payload of the [annotations.json] download is
    [JSON.stringify(detections, null, 2)]. *)
Definition exportData (st : AppState) : JSON :=
  JArray (map jsonOfDetection (detections st)).

(** Keys of a JSON object ([[]] for any other value). *)
Definition jsonKeys (j : JSON) : list string :=
  match j with
  | JObject members => map fst members
  | _ => []
  end.

(** ** The annotation canvas (AnnotationCanvas) *)

(** A pointer position, [{ x, y }]. *)
Module Vector2d.
Record t : Type := { x : Q; y : Q }.
End Vector2d.

(** The attributes of a [Rect] node that the handlers read and write. *)
Module Node.
Record t : Type := {
  x : Q;
  y : Q;
  width : Q;
  height : Q;
  scaleX : Q;
  scaleY : Q
}.
End Node.

(** The attributes of the [Stage] that [handleWheel] reads and writes. *)
Module Stage.
Record t : Type := {
  x : Q;
  y : Q;
  scaleX : Q;
  scaleY : Q
}.
End Stage.

(** The box the [Transformer] hands to [boundBoxFunc]. *)
Module Box.
Record t : Type := {
  x : Q;
  y : Q;
  width : Q;
  height : Q;
  rotation : Q
}.
End Box.

(** The props [AnnotationCanvas] gives the [Rect] of a detection; a node's
    scale is [1] unless a transformer gesture is under way (both handlers
    reset it). *)
Definition rectOf (d : Detection) : Node.t :=
  {| Node.x := x1 (box d);
     Node.y := y1 (box d);
     Node.width := x2 (box d) - x1 (box d);
     Node.height := y2 (box d) - y1 (box d);
     Node.scaleX := 1;
     Node.scaleY := 1 |}.

(** [newBox] of [handleDragEnd] and of [handleTransformEnd]. *)
Definition newBoxOf (node : Node.t) : BoundingBox :=
  {| x1 := Node.x node;
     y1 := Node.y node;
     x2 := Node.x node + Node.width node * Node.scaleX node;
     y2 := Node.y node + Node.height node * Node.scaleY node |}.

(** [node.scaleX(1); node.scaleY(1)] *)
Definition resetScale (node : Node.t) : Node.t :=
  {| Node.x := Node.x node; Node.y := Node.y node;
     Node.width := Node.width node; Node.height := Node.height node;
     Node.scaleX := 1; Node.scaleY := 1 |}.

(** [{ ...d, box: newBox }] *)
Definition withBox (d : Detection) (newBox : BoundingBox) : Detection :=
  {| id := id d; label := label d; confidence := confidence d;
     box := newBox |}.

(** [detections.map(d => d.id === id ? { ...d, box: newBox } : d)] *)
Definition newDetections (detections : list Detection) (i : string)
  (newBox : BoundingBox) : list Detection :=
  map (fun d => if id d =? i then withBox d newBox else d) detections.

(** [handleDragEnd(e, id)] with [node = e.target], over the [detections]
    prop: the list handed to [setDetections] and the node as it is left. *)
Definition handleDragEnd (detections : list Detection) (node : Node.t)
  (i : string) : list Detection * Node.t :=
  let newBox := newBoxOf node in
  (newDetections detections i newBox, resetScale node).

(** [handleTransformEnd(e, id)]: the same computation, with the scale read
    before it is reset. *)
Definition handleTransformEnd (detections : list Detection) (node : Node.t)
  (i : string) : list Detection * Node.t :=
  let scaleX := Node.scaleX node in
  let scaleY := Node.scaleY node in
  let newBox :=
    {| x1 := Node.x node;
       y1 := Node.y node;
       x2 := Node.x node + Node.width node * scaleX;
       y2 := Node.y node + Node.height node * scaleY |} in
  (newDetections detections i newBox, resetScale node).

(** [App] renders [<AnnotationCanvas detections={visibleDetections}
    setDetections={setDetections} />]: the canvas maps over the visible
    list and stores the result as the whole list. *)
Definition canvasDragEnd (node : Node.t) (i : string) (st : AppState)
  : AppState :=
  setDetections (fst (handleDragEnd (visibleDetections st) node i)) st.

Definition canvasTransformEnd (node : Node.t) (i : string) (st : AppState)
  : AppState :=
  setDetections (fst (handleTransformEnd (visibleDetections st) node i)) st.

(** [checkDeselect]: a press whose target is the stage itself. *)
Definition checkDeselect (clickedOnEmpty : bool) (st : AppState) : AppState :=
  if clickedOnEmpty then selectShape None st else st.

(** *** Zoom *)

Definition scaleBy : Q := 1.1.

(** [mousePointTo]: the image-space point under the pointer, with
    [oldScale = stage.scaleX()]. *)
Definition mousePointTo (stage : Stage.t) (pointer : Vector2d.t)
  : Vector2d.t :=
  let oldScale := Stage.scaleX stage in
  {| Vector2d.x := (Vector2d.x pointer - Stage.x stage) / oldScale;
     Vector2d.y := (Vector2d.y pointer - Stage.y stage) / oldScale |}.

(** [e.evt.deltaY > 0 ? oldScale / scaleBy : oldScale * scaleBy] *)
Definition candidateScale (oldScale deltaY : Q) : Q :=
  if Qgtb deltaY 0 then oldScale / scaleBy else oldScale * scaleBy.

(** [if (newScale < 0.1) newScale = 0.1; if (newScale > 5) newScale = 5;] *)
Definition limitZoom (newScale : Q) : Q :=
  let newScale := if Qltb newScale 0.1 then 0.1 else newScale in
  if Qgtb newScale 5 then 5 else newScale.

(** [handleWheel]: [stageRef] is [stageRef.current], [pointer] is
    [stage.getPointerPosition()]; the result is the stage afterwards. *)
Definition handleWheel (stageRef : option Stage.t)
  (pointer : option Vector2d.t) (deltaY : Q) : option Stage.t :=
  match stageRef with
  | None => None
  | Some stage =>
      match pointer with
      | None => Some stage
      | Some pointer =>
          let oldScale := Stage.scaleX stage in
          let m := mousePointTo stage pointer in
          let newScale := limitZoom (candidateScale oldScale deltaY) in
          Some {| Stage.scaleX := newScale;
                  Stage.scaleY := newScale;
                  Stage.x := Vector2d.x pointer - Vector2d.x m * newScale;
                  Stage.y := Vector2d.y pointer - Vector2d.y m * newScale |}
      end
  end.

(** One wheel event as the handler sees it. *)
Record WheelEvent : Type := {
  pointerPosition : option Vector2d.t;
  deltaY : Q
}.

(** A run of wheel events on a mounted stage. *)
Definition wheelEvents (stageRef : option Stage.t) (events : list WheelEvent)
  : option Stage.t :=
  fold_left (fun ref e => handleWheel ref (pointerPosition e) (deltaY e))
            events stageRef.

(** The viewport mapping of a stage, [image = (screen - offset) / scale],
    axis by axis. *)
Definition toImage (stage : Stage.t) (p : Vector2d.t) : Vector2d.t :=
  {| Vector2d.x := (Vector2d.x p - Stage.x stage) / Stage.scaleX stage;
     Vector2d.y := (Vector2d.y p - Stage.y stage) / Stage.scaleY stage |}.

(** Equality of stages and of points up to the representation of a
    rational. *)
Definition stageEq (a b : Stage.t) : Prop :=
  Stage.x a == Stage.x b /\ Stage.y a == Stage.y b /\
  Stage.scaleX a == Stage.scaleX b /\ Stage.scaleY a == Stage.scaleY b.

Definition pointEq (a b : Vector2d.t) : Prop :=
  Vector2d.x a == Vector2d.x b /\ Vector2d.y a == Vector2d.y b.

Definition boxEq (a b : BoundingBox) : Prop :=
  x1 a == x1 b /\ y1 a == y1 b /\ x2 a == x2 b /\ y2 a == y2 b.

(** *** Resize limit *)

(** [boundBoxFunc] of the [Transformer]. *)
Definition boundBoxFunc (oldBox newBox : Box.t) : Box.t :=
  if Qltb (Box.width newBox) 5 || Qltb (Box.height newBox) 5 then oldBox
  else newBox.






(** Modelled from the spec: a plain drag moves the node and leaves its
    size and scale alone. *)
Definition dragTo (node : Node.t) (nx ny : Q) : Node.t :=
  {| Node.x := nx; Node.y := ny;
     Node.width := Node.width node; Node.height := Node.height node;
     Node.scaleX := Node.scaleX node; Node.scaleY := Node.scaleY node |}.




(** [proposed] passes [boundBoxFunc]. *)
Definition accepted (proposed : Box.t) : Prop :=
  5 <= Box.width proposed /\ 5 <= Box.height proposed.





(** *** Vocabulary of the statements *)

(** [l1] is [l2] with some entries left out, the rest in their order. *)
Inductive subseq {A : Type} : list A -> list A -> Prop :=
| subseq_nil : subseq [] []
| subseq_skip (a : A) (l1 l2 : list A) :
    subseq l1 l2 -> subseq l1 (a :: l2)
| subseq_keep (a : A) (l1 l2 : list A) :
    subseq l1 l2 -> subseq (a :: l1) (a :: l2).

(** Number of entries of a list with confidence at least [t]. *)
Fixpoint countAtLeast (t : Q) (l : list Detection) : nat :=
  match l with
  | [] => 0%nat
  | d :: rest =>
      if Qle_bool t (confidence d) then S (countAtLeast t rest)
      else countAtLeast t rest
  end.

(** Items of a JSON array, a member of a JSON object. *)
Definition jsonItems (j : JSON) : list JSON :=
  match j with
  | JArray items => items
  | _ => []
  end.

Definition jsonMember (key : string) (j : JSON) : option JSON :=
  match j with
  | JObject members =>
      option_map snd (find (fun m => fst m =? key) members)
  | _ => None
  end.

(** The three cells the error-handling rule names. *)
Definition sameDocument (a b : AppState) : Prop :=
  currentImageId a = currentImageId b /\
  imageSrc a = imageSrc b /\
  detections a = detections b.

(** The viewport invariant, on both scale attributes of the stage. *)
Definition scaleInRange (stage : Stage.t) : Prop :=
  (0.1 <= Stage.scaleX stage <= 5) /\ (0.1 <= Stage.scaleY stage <= 5).

(** A wheel event that leaves the viewport as it was. *)
Definition wheelLeavesViewport (stage : Stage.t)
  (pointer : option Vector2d.t) (deltaY : Q) : Prop :=
  match handleWheel (Some stage) pointer deltaY with
  | Some stage' => stageEq stage' stage
  | None => False
  end.

(** ** Sample data *)

Definition mkBox (a b c d : Q) : BoundingBox :=
  {| x1 := a; y1 := b; x2 := c; y2 := d |}.

Definition detA : Detection :=
  {| id := "a"; label := "car"; confidence := 0.9;
     box := mkBox 40 40 60 60 |}.

Definition detB : Detection :=
  {| id := "b"; label := "person"; confidence := 0.2;
     box := mkBox 10 10 30 50 |}.

(** An open image with two detections, [detB] under the threshold. *)
Definition sampleState : AppState :=
  {| file := Some "road.png"; imageSrc := Some "blob:road";
     detections := [detA; detB];
     isLoading := false;
     imageDimensions := {| dim_width := 640; dim_height := 480 |};
     history := []; currentImageId := Some 1%Z; selectedId := Some "a";
     confidenceThreshold := 0.5; enhanceAccuracy := false |}.


(** A detection whose id is the empty string. *)
Definition detE : Detection :=
  {| id := ""; label := "tree"; confidence := 0.8;
     box := mkBox 5 5 25 25 |}.


Definition identityStage : Stage.t :=
  {| Stage.x := 0; Stage.y := 0; Stage.scaleX := 1; Stage.scaleY := 1 |}.

Definition maxZoomStage : Stage.t :=
  {| Stage.x := 0; Stage.y := 0; Stage.scaleX := 5; Stage.scaleY := 5 |}.

Definition samplePointer : Vector2d.t :=
  {| Vector2d.x := 100; Vector2d.y := 100 |}.

(** ** Requests, render guards and the transformer effect *)

(** The part of a detection that comes from the server. *)
Definition serverPart (d : Detection) : ServerDetection :=
  {| s_label := label d; s_confidence := confidence d; s_box := box d |}.

(** The request [saveAnnotations] sends, if any: [PUT /annotations/{id}]
    with the detection list as body; nothing when [!currentImageId]. *)
Definition saveAnnotationsRequest (st : AppState)
  : option (Z * list Detection) :=
  match currentImageId st with
  | None => None
  | Some c => if (c =? 0)%Z then None else Some (c, detections st)
  end.

(** [{currentImageId && (<>Save Changes, Export JSON</>)}]: whether the two
    navbar buttons are rendered. *)
Definition navActionsShown (st : AppState) : bool :=
  match currentImageId st with
  | None => false
  | Some c => negb (c =? 0)%Z
  end.

(** [disabled={!file || isLoading}] of the detect button. *)
Definition detectDisabled (st : AppState) : bool :=
  match file st with
  | None => true
  | Some _ => isLoading st
  end.

(** The effect of [AnnotationCanvas] on [[selectedId, detections]]:
    the argument of the [trRef.current.nodes(...)] call it makes, as the
    ids of the nodes, or [None] when it makes no call. [mounted] tells
    whether the stage and the transformer exist ([imageSrc] is set);
    [stage.findOne('#' + selectedId)] looks for a node with that id
    attribute, and the nodes with an id are the [Rect]s of the
    [detections] prop. *)
Definition transformerEffect (mounted : bool) (selected : option string)
  (rendered : list Detection) : option (list string) :=
  let truthy :=
    match selected with
    | Some sel => negb (sel =? "")
    | None => false
    end in
  if truthy && mounted then
    match selected with
    | Some sel =>
        match find (fun d => id d =? sel) rendered with
        | Some d => Some [id d]
        | None => None
        end
    | None => None
    end
  else if mounted then Some []
  else None.

(** A wheel event at [p] that zooms in ([deltaY <= 0]) or out. *)
Definition wheelIn (p : Vector2d.t) : WheelEvent :=
  {| pointerPosition := Some p; deltaY := -100 |}.

Definition wheelOut (p : Vector2d.t) : WheelEvent :=
  {| pointerPosition := Some p; deltaY := 100 |}.

(** The smallest scale [k] zoom-in steps can leave when started in range
    and never limited: [0.1 * 1.1^k]. *)
Fixpoint zoomInFloor (k : nat) : Q :=
  match k with
  | O => 0.1
  | S k' => zoomInFloor k' * scaleBy
  end.

(** The largest scale [k] zoom-out steps can leave: [5 / 1.1^k]. *)
Fixpoint zoomOutCeiling (k : nat) : Q :=
  match k with
  | O => 5
  | S k' => zoomOutCeiling k' / scaleBy
  end.

(** ** More sample data *)

(** A generator whose first two results differ. *)
Definition twoIds (k : nat) : string :=
  match k with
  | O => "k3f9"
  | _ => "q7aa"
  end.

(** * Properties *)

(** ** Comparisons *)

Lemma Qltb_lt (a b : Q) : Qltb a b = true <-> a < b.
Proof.
  unfold Qltb. rewrite negb_true_iff, <- not_true_iff_false, Qle_bool_iff.
  split; [apply Qnot_le_lt | apply Qlt_not_le].
Qed.

Lemma Qltb_ge (a b : Q) : Qltb a b = false <-> b <= a.
Proof.
  unfold Qltb. rewrite negb_false_iff. apply Qle_bool_iff.
Qed.

Lemma Qgeb_ge (a b : Q) : Qgeb a b = true <-> b <= a.
Proof. apply Qle_bool_iff. Qed.

(** ** Sub-sequences and filters *)

Lemma subseq_filter {A : Type} (f : A -> bool) (l : list A) :
  subseq (filter f l) l.
Proof.
  induction l as [|a l IH]; simpl.
  - constructor.
  - destruct (f a); constructor; exact IH.
Qed.

Lemma length_filter_countAtLeast (t : Q) (l : list Detection) :
  List.length (filter (fun d => Qgeb (confidence d) t) l) = countAtLeast t l.
Proof.
  induction l as [|d l IH]; simpl; [reflexivity|].
  unfold Qgeb at 1. destruct (Qle_bool t (confidence d)); simpl; congruence.
Qed.

Lemma subseq_length_countAtLeast (t : Q) (v l : list Detection) :
  subseq v l ->
  (forall d, In d v -> t <= confidence d) ->
  (List.length v <= countAtLeast t l)%nat.
Proof.
  induction 1 as [|a l1 l2 _ IH|a l1 l2 _ IH]; intros Hall; simpl.
  - lia.
  - specialize (IH Hall). destruct (Qle_bool t (confidence a)); lia.
  - assert (Ha : Qle_bool t (confidence a) = true)
      by (apply Qle_bool_iff, Hall; left; reflexivity).
    rewrite Ha.
    assert (List.length l1 <= countAtLeast t l2)%nat
      by (apply IH; intros d Hd; apply Hall; right; exact Hd).
    lia.
Qed.

(** A sub-sequence made of entries at or above the threshold, as long as
    the count of such entries, is the filtered list. *)
Lemma subseq_full_is_filter (t : Q) (v l : list Detection) :
  subseq v l ->
  (forall d, In d v -> t <= confidence d) ->
  List.length v = countAtLeast t l ->
  v = filter (fun d => Qgeb (confidence d) t) l.
Proof.
  induction 1 as [|a l1 l2 Hs IH|a l1 l2 Hs IH]; intros Hall Hlen.
  - reflexivity.
  - simpl in *. unfold Qgeb at 1.
    pose proof (subseq_length_countAtLeast t l1 l2 Hs Hall) as Hle.
    destruct (Qle_bool t (confidence a)).
    + lia.
    + apply IH; assumption.
  - simpl in *. unfold Qgeb at 1.
    assert (Ha : Qle_bool t (confidence a) = true)
      by (apply Qle_bool_iff, Hall; left; reflexivity).
    rewrite Ha in *. f_equal. apply IH.
    + intros d Hd. apply Hall. right. exact Hd.
    + lia.
Qed.

(** ** The visible view *)

(** C8. For every state (detection list) and every threshold [t] set on
    the slider, the visible view is the sub-sequence of the canonical list
    made of the entries with confidence at least [t] (comparison
    inclusive), in their original order: it is a sub-sequence, it contains
    exactly those entries, it has as many entries as there are entries with
    confidence at least [t], and it is the only such list. Setting the
    threshold and computing the view leaves the canonical list as it was,
    entry by entry, ids included. *)
Theorem visibleDetections_threshold_view (st : AppState) (t : Q) :
  let st' := setConfidenceThreshold t st in
  detections st' = detections st /\
  subseq (visibleDetections st') (detections st) /\
  (forall d, In d (visibleDetections st') <->
             In d (detections st) /\ t <= confidence d) /\
  List.length (visibleDetections st') = countAtLeast t (detections st) /\
  (forall v, subseq v (detections st) ->
             (forall d, In d v -> t <= confidence d) ->
             List.length v = countAtLeast t (detections st) ->
             v = visibleDetections st').
Proof.
  cbv zeta. unfold visibleDetections. cbn [setConfidenceThreshold
    detections confidenceThreshold].
  split; [reflexivity|]. split; [apply subseq_filter|]. split; [|split].
  - intros d. rewrite filter_In, Qgeb_ge. reflexivity.
  - apply length_filter_countAtLeast.
  - intros v Hs Hall Hlen. apply subseq_full_is_filter; assumption.
Qed.

(** ** Deleting the selected entry *)

Lemma filter_all_true {A : Type} (f : A -> bool) (l : list A) :
  (forall a, In a l -> f a = true) -> filter f l = l.
Proof.
  induction l as [|a l IH]; intros Hall; simpl; [reflexivity|].
  rewrite (Hall a (or_introl eq_refl)). f_equal.
  apply IH. intros b Hb. apply Hall. right. exact Hb.
Qed.

(** Filtering out an id that occurs once takes out one entry and keeps the
    entries before and after it. *)
Lemma filter_out_unique_id (sel : string) (l : list Detection) :
  NoDup (map id l) ->
  In sel (map id l) ->
  exists l1 d l2,
    l = l1 ++ d :: l2 /\ id d = sel /\
    filter (fun d => negb (id d =? sel)) l = l1 ++ l2.
Proof.
  induction l as [|a l IH]; intros Hnd Hin; [contradiction|].
  simpl in Hnd, Hin. inversion Hnd as [|? ? Hnotin Hnd']; subst.
  destruct (String.eqb_spec (id a) sel) as [Heq|Hne].
  - exists [], a, l. simpl. rewrite Heq, String.eqb_refl. simpl.
    repeat split; try reflexivity.
    apply filter_all_true. intros b Hb.
    apply negb_true_iff, String.eqb_neq. intros Hb'.
    apply Hnotin. rewrite Heq, <- Hb'. apply in_map. exact Hb.
  - destruct Hin as [Hin|Hin]; [contradiction|].
    destruct (IH Hnd' Hin) as (l1 & d & l2 & Hl & Hd & Hf).
    exists (a :: l1), d, l2. simpl.
    apply String.eqb_neq in Hne. rewrite Hne. simpl.
    rewrite Hf, Hl. repeat split; try reflexivity. exact Hd.
Qed.

(** C9, as stated, fails on two kinds of list that contain the selected
    id. With the id ["a"] carried by two entries, Delete removes both: the
    length goes from 3 to 1. With the empty string as the selected id and
    an entry carrying it, Delete removes nothing and the selection stays:
    the handler takes an empty id for no selection. *)
Lemma handleKeyDown_exactly_one_counterexample :
  (let st := setDetections [detA; withBox detA (mkBox 0 0 9 9); detB]
               sampleState in
   selectedId st = Some "a" /\
   In "a" (map id (detections st)) /\
   List.length (detections st) = 3%nat /\
   List.length (detections (handleKeyDown "Delete" st)) = 1%nat /\
   S (List.length (detections (handleKeyDown "Delete" st)))
     <> List.length (detections st)) /\
  (let st := selectShape (Some "") (setDetections [detE; detB] sampleState) in
   selectedId st = Some "" /\
   In "" (map id (detections st)) /\
   NoDup (map id (detections st)) /\
   detections (handleKeyDown "Delete" st) = detections st /\
   selectedId (handleKeyDown "Delete" st) <> None).
Proof.
  cbv zeta. split.
  - cbn. repeat split; try (left; reflexivity). discriminate.
  - cbn. repeat split; try (left; reflexivity); try discriminate.
    repeat constructor; simpl; intuition discriminate.
Qed.

(** C9, amended. With pairwise distinct ids in the canonical list (the
    data model's requirement on ids), when the selected id is in the list
    and is a non-empty string (the handler tests it for truthiness),
    pressing Delete or Backspace removes exactly the entry with that id:
    the list before is [l1 ++ d :: l2] with [d] the selected entry and the
    list after is [l1 ++ l2], so the length goes down by one and every
    other entry is kept as it was and where it was; the selection is none
    afterwards. When no id is selected ([null], or the empty string, which
    the handler takes for no selection) the key press changes nothing. *)
Theorem handleKeyDown_deletes_selected (st : AppState) (key : string)
  (Hkey : isDeleteKey key = true)
  (Hids : NoDup (map id (detections st))) :
  (forall sel,
      selectedId st = Some sel -> sel <> "" ->
      In sel (map id (detections st)) ->
      let st' := handleKeyDown key st in
      selectedId st' = None /\
      S (List.length (detections st')) = List.length (detections st) /\
      exists l1 d l2,
        detections st = l1 ++ d :: l2 /\ id d = sel /\
        detections st' = l1 ++ l2) /\
  (selectedId st = None \/ selectedId st = Some "" ->
   handleKeyDown key st = st).
Proof.
  split.
  - intros sel Hsel Hne Hin. unfold handleKeyDown. rewrite Hsel, Hkey.
    apply String.eqb_neq in Hne. rewrite Hne. simpl.
    destruct (filter_out_unique_id sel (detections st) Hids Hin)
      as (l1 & d & l2 & Hl & Hd & Hf).
    split; [reflexivity|]. split.
    + rewrite Hf, Hl, !length_app. simpl. lia.
    + exists l1, d, l2. auto.
  - intros [Hnone|Hempty]; unfold handleKeyDown.
    + rewrite Hnone. reflexivity.
    + rewrite Hempty, andb_false_r. reflexivity.
Qed.

(** The sample state has the entry ["a"] selected; Delete leaves the other
    entry alone. *)
Lemma handleKeyDown_deletes_selected_witness :
  isDeleteKey "Delete" = true /\
  NoDup (map id (detections sampleState)) /\
  selectedId (handleKeyDown "Delete" sampleState) = None /\
  detections (handleKeyDown "Delete" sampleState) = [detB].
Proof.
  assert (Hkey : isDeleteKey "Delete" = true) by reflexivity.
  assert (Hids : NoDup (map id (detections sampleState))).
  { simpl. repeat constructor; simpl; intuition discriminate. }
  split; [exact Hkey|]. split; [exact Hids|].
  destruct (handleKeyDown_deletes_selected sampleState "Delete" Hkey Hids)
    as [Hdel _].
  destruct (Hdel "a" eq_refl) as [Hsel _].
  - discriminate.
  - simpl. left. reflexivity.
  - split; [exact Hsel | reflexivity].
Defined.

(** ** Replacing the store and the selection *)

Lemma selectedId_fetchHistory (res : option (list HistoryItem.t))
  (st : AppState) :
  selectedId (fetchHistory res st) = selectedId st.
Proof. destruct res; reflexivity. Qed.

(** C5, as stated, fails: with the entry ["a"] selected, loading a history
    item, choosing a file and receiving a detect response each replace the
    store and each leave ["a"] selected. *)
Lemma replace_keeps_selection_counterexample :
  let gen := fun _ : nat => "fresh" in
  let data := [ {| s_label := "bus"; s_confidence := 0.8;
                   s_box := mkBox 0 0 10 10 |} ] in
  selectedId sampleState = Some "a" /\
  selectedId (loadHistoryItem gen 2 (Some data) sampleState) <> None /\
  selectedId (handleFileChange ["next.png"] "blob:next" sampleState)
    <> None /\
  selectedId
    (handleDetect gen
       (Some {| image_id := 3; r_detections := data |}) None sampleState)
    <> None.
Proof. cbn. repeat split; discriminate. Qed.

(** C5, amended. For every current selection state, replacing the store
    wholesale (loading a history item, choosing a new file, receiving a
    detect response) leaves the selection exactly as it was before the
    replacement: a selected id stays selected, none stays none. *)
Theorem replace_leaves_selection_unchanged (st : AppState)
  (gen : nat -> string) (i : Z) (res : option (list ServerDetection))
  (files : list File) (objectUrl : string)
  (response : option DetectResponse) (hist : option (list HistoryItem.t)) :
  selectedId (loadHistoryItem gen i res st) = selectedId st /\
  selectedId (handleFileChange files objectUrl st) = selectedId st /\
  selectedId (handleDetect gen response hist st) = selectedId st.
Proof.
  split; [|split].
  - unfold loadHistoryItem. destruct res; reflexivity.
  - unfold handleFileChange. destruct files; reflexivity.
  - unfold handleDetect. destruct (file st); [|reflexivity].
    destruct response; simpl; [|reflexivity].
    destruct hist; reflexivity.
Qed.

(** ** Failed requests *)

(** A failed detect, save or delete request leaves the image id, the image
    source and the detection list as they were. *)
Lemma failed_detect_save_delete_preserve (st : AppState)
  (gen : nat -> string) (hist : option (list HistoryItem.t)) (i : Z) :
  sameDocument (handleDetect gen None hist st) st /\
  sameDocument (saveAnnotations false hist st) st /\
  sameDocument (deleteHistoryItem i false st) st.
Proof.
  unfold sameDocument. split; [|split].
  - unfold handleDetect. destruct (file st); repeat split.
  - assert (Hsave : saveAnnotations false hist st = st).
    { unfold saveAnnotations. destruct (currentImageId st) as [c|].
      - destruct (c =? 0)%Z; reflexivity.
      - reflexivity. }
    rewrite Hsave. repeat split.
  - repeat split.
Qed.

(** What a failed history load leaves behind, for every state: the new
    image id and the new image source with the old detection list. *)
Lemma failed_loadHistoryItem_state (st : AppState) (gen : nat -> string)
  (i : Z) :
  let st' := loadHistoryItem gen i None st in
  currentImageId st' = Some i /\
  imageSrc st' = Some (imageUrl i) /\
  detections st' = detections st.
Proof. repeat split. Qed.

(** C6 on the code: with image 1 open, a history load of image 2 whose
    request fails leaves the image id at 2 and the image source at the url
    of image 2, over the detections of image 1. The claim holds for detect,
    save and delete ([failed_detect_save_delete_preserve]). *)
Theorem failed_loadHistoryItem_changes_state :
  let st' := loadHistoryItem (fun _ => "fresh") 2 None sampleState in
  currentImageId sampleState = Some 1%Z /\
  imageSrc sampleState = Some "blob:road" /\
  currentImageId st' = Some 2%Z /\
  imageSrc st' = Some "http://127.0.0.1:8000/images/2" /\
  detections st' = detections sampleState /\
  ~ sameDocument st' sampleState.
Proof.
  cbv zeta. repeat split.
  intros [Hid _]. discriminate Hid.
Qed.

(** ** Export *)

(** C7, as stated, fails: the exported element of the entry ["a"] has an
    [id] member, so its keys are not among [label], [confidence], [box]. *)
Lemma exportData_has_id_counterexample :
  ~ (forall j, In j (jsonItems (exportData sampleState)) ->
               incl (jsonKeys j) ["label"; "confidence"; "box"]).
Proof.
  intros H.
  specialize (H (jsonOfDetection detA) (or_introl eq_refl) "id").
  simpl in H.
  assert (Hin : "label" = "id" \/ "confidence" = "id" \/ "box" = "id" \/ False)
    by (apply H; tauto).
  intuition discriminate.
Qed.

(** C7, amended. For every detection list the exported JSON is an array
    with one element per detection, in order; every element has exactly
    the members [label], [confidence], [box] and [id], and its [id] member
    is the client-side id of the detection. *)
Theorem exportData_members (st : AppState) :
  List.length (jsonItems (exportData st)) = List.length (detections st) /\
  (forall j, In j (jsonItems (exportData st)) ->
             jsonKeys j = ["label"; "confidence"; "box"; "id"]) /\
  map (jsonMember "id") (jsonItems (exportData st)) =
    map (fun d => Some (JString (id d))) (detections st) /\
  map (jsonMember "label") (jsonItems (exportData st)) =
    map (fun d => Some (JString (label d))) (detections st) /\
  map (jsonMember "confidence") (jsonItems (exportData st)) =
    map (fun d => Some (JNumber (confidence d))) (detections st) /\
  map (jsonMember "box") (jsonItems (exportData st)) =
    map (fun d => Some (jsonOfBox (box d))) (detections st).
Proof.
  unfold exportData. simpl. rewrite length_map, !map_map.
  repeat split.
  intros j Hj. apply in_map_iff in Hj. destruct Hj as (d & <- & _).
  reflexivity.
Qed.

(** ** Committing an edit *)

Lemma newDetections_ids (ds : list Detection) (i : string)
  (b : BoundingBox) :
  map id (newDetections ds i b) = map id ds.
Proof.
  unfold newDetections. rewrite map_map. apply map_ext.
  intros d. destruct (id d =? i); reflexivity.
Qed.

Lemma newDetections_other (ds : list Detection) (i : string)
  (b : BoundingBox) (d : Detection) :
  In d ds -> id d <> i -> In d (newDetections ds i b).
Proof.
  intros Hin Hne. unfold newDetections. apply in_map_iff.
  exists d. apply String.eqb_neq in Hne. rewrite Hne. auto.
Qed.

(** What the canvas stores on a drag end, for every state: the visible
    list with the box of the matching entries replaced. *)
Lemma canvasDragEnd_detections (node : Node.t) (i : string) (st : AppState) :
  detections (canvasDragEnd node i st) =
  newDetections (visibleDetections st) i (newBoxOf node).
Proof. reflexivity. Qed.

(** With no entry under the threshold the commit is the update of the
    canonical list: same ids in the same order, every entry with another
    id kept. *)
Lemma canvasDragEnd_all_visible (node : Node.t) (i : string)
  (st : AppState) :
  (forall d, In d (detections st) ->
             confidenceThreshold st <= confidence d) ->
  detections (canvasDragEnd node i st) =
    newDetections (detections st) i (newBoxOf node) /\
  map id (detections (canvasDragEnd node i st)) = map id (detections st) /\
  (forall d, In d (detections st) -> id d <> i ->
             In d (detections (canvasDragEnd node i st))).
Proof.
  intros Hall.
  assert (Hvis : visibleDetections st = detections st).
  { unfold visibleDetections. apply filter_all_true.
    intros d Hd. apply Qgeb_ge, Hall, Hd. }
  rewrite canvasDragEnd_detections, Hvis. split; [reflexivity|]. split.
  - apply newDetections_ids.
  - intros d Hd Hne. apply newDetections_other; assumption.
Qed.

Lemma NoDup_map_In_eq {A B : Type} (f : A -> B) (l : list A) (a b : A) :
  NoDup (map f l) -> In a l -> In b l -> f a = f b -> a = b.
Proof.
  induction l as [|c l IH]; intros Hnd Ha Hb Hf; [contradiction|].
  simpl in Hnd. inversion Hnd as [|? ? Hnotin Hnd']; subst.
  destruct Ha as [->|Ha], Hb as [->|Hb].
  - reflexivity.
  - exfalso. apply Hnotin. rewrite Hf. apply in_map. exact Hb.
  - exfalso. apply Hnotin. rewrite <- Hf. apply in_map. exact Ha.
  - apply IH; assumption.
Qed.

(** With pairwise distinct ids, an entry under the threshold is not in the
    list the canvas stores, whichever shape was dragged. *)
Lemma canvasDragEnd_drops_hidden (node : Node.t) (i : string)
  (st : AppState) (d : Detection) :
  NoDup (map id (detections st)) ->
  In d (detections st) ->
  confidence d < confidenceThreshold st ->
  ~ In (id d) (map id (detections (canvasDragEnd node i st))).
Proof.
  intros Hnd Hd Hlt Hin.
  rewrite canvasDragEnd_detections, newDetections_ids in Hin.
  apply in_map_iff in Hin. destruct Hin as (d' & Hid & Hd').
  unfold visibleDetections in Hd'. apply filter_In in Hd'.
  destruct Hd' as [Hd' Hvis].
  assert (d' = d) by (apply (NoDup_map_In_eq id (detections st)); assumption).
  subst d'. apply Qgeb_ge in Hvis. apply (Qlt_not_le _ _ Hlt Hvis).
Qed.

(** C1 on the code: with threshold 0.5 and the canonical list
    [[detA; detB]], where [detB] has confidence 0.2, dragging the shape of
    ["a"] to (100, 100) and releasing stores a list with the moved ["a"]
    only; [detB], which has another id, is gone from the canonical list. *)
Theorem canvasDragEnd_loses_hidden_entries :
  let st' := canvasDragEnd (dragTo (rectOf detA) 100 100) "a" sampleState in
  detections sampleState = [detA; detB] /\
  id detB <> "a" /\
  visibleDetections sampleState = [detA] /\
  detections st' = [withBox detA (mkBox 100 100 120 120)] /\
  ~ In detB (detections st') /\
  ~ In "b" (map id (detections st')).
Proof.
  cbv zeta. repeat split.
  - discriminate.
  - vm_compute. intros [H|[]]. discriminate H.
  - vm_compute. intros [H|[]]. discriminate H.
Qed.

(** ** Zoom *)

Lemma limitZoom_range (c : Q) : 0.1 <= limitZoom c <= 5.
Proof.
  unfold limitZoom, Qgtb.
  destruct (Qltb c 0.1) eqn:Hlow.
  - vm_compute. split; discriminate.
  - apply Qltb_ge in Hlow. destruct (Qltb 5 c) eqn:Hhigh.
    + vm_compute. split; discriminate.
    + apply Qltb_ge in Hhigh. split; assumption.
Qed.

Lemma limitZoom_below (c : Q) : c < 0.1 -> limitZoom c = 0.1.
Proof.
  intros Hc. unfold limitZoom. apply Qltb_lt in Hc. rewrite Hc. reflexivity.
Qed.

Lemma limitZoom_above (c : Q) : 5 < c -> limitZoom c = 5.
Proof.
  intros Hc. unfold limitZoom, Qgtb.
  assert (Hlow : Qltb c 0.1 = false) by (apply Qltb_ge; lra).
  apply Qltb_lt in Hc. rewrite Hlow, Hc. reflexivity.
Qed.

Lemma limitZoom_within (c : Q) : 0.1 <= c <= 5 -> limitZoom c = c.
Proof.
  intros [Hlo Hhi]. unfold limitZoom, Qgtb.
  apply Qltb_ge in Hlo, Hhi. rewrite Hlo, Hhi. reflexivity.
Qed.

(** A wheel event on a mounted stage yields a stage; with a pointer
    position its two scale attributes are the limited candidate. *)
Lemma handleWheel_pointer (stage : Stage.t) (p : Vector2d.t) (dy : Q) :
  exists stage',
    handleWheel (Some stage) (Some p) dy = Some stage' /\
    Stage.scaleX stage' = limitZoom (candidateScale (Stage.scaleX stage) dy) /\
    Stage.scaleY stage' = Stage.scaleX stage' /\
    Stage.x stage' =
      Vector2d.x p - Vector2d.x (mousePointTo stage p) * Stage.scaleX stage' /\
    Stage.y stage' =
      Vector2d.y p - Vector2d.y (mousePointTo stage p) * Stage.scaleX stage'.
Proof. eexists. repeat split. Qed.

Lemma handleWheel_keeps_range (stage : Stage.t) (e : WheelEvent) :
  scaleInRange stage ->
  exists stage',
    handleWheel (Some stage) (pointerPosition e) (deltaY e) = Some stage' /\
    scaleInRange stage'.
Proof.
  intros Hrange. destruct (pointerPosition e) as [p|].
  - destruct (handleWheel_pointer stage p (deltaY e))
      as (stage' & Heq & Hsx & Hsy & _).
    exists stage'. split; [exact Heq|].
    unfold scaleInRange. rewrite Hsy, Hsx.
    split; apply limitZoom_range.
  - exists stage. split; [reflexivity | exact Hrange].
Qed.

(** The scenario of the specification: scale 1, offset (0, 0), pointer at
    (100, 100), one wheel-in event gives scale 1.1 and offset (-10, -10);
    the image point (40, 40) then shows at screen (34, 34). *)
Example handleWheel_spec_scenario :
  exists stage',
    handleWheel (Some identityStage) (Some samplePointer) (-100)
      = Some stage' /\
    Stage.scaleX stage' == 1.1 /\ Stage.scaleY stage' == 1.1 /\
    Stage.x stage' == -10 /\ Stage.y stage' == -10 /\
    40 * Stage.scaleX stage' + Stage.x stage' == 34.
Proof. eexists. split; [reflexivity|]. vm_compute. repeat split. Qed.

(** C3. Starting from a scale in [0.1, 5], after any finite sequence of
    wheel events (any directions, with or without a pointer position) the
    handler has produced a stage whose scale is in [0.1, 5]. A candidate
    scale outside the range is not refused: the event is applied with the
    scale set to the boundary it crossed, 0.1 or 5, and a candidate inside
    the range is applied as it is. *)
Theorem wheelEvents_scale_in_range (stage : Stage.t)
  (events : list WheelEvent) (Hrange : scaleInRange stage) :
  (exists stage',
      wheelEvents (Some stage) events = Some stage' /\ scaleInRange stage') /\
  (forall (p : Vector2d.t) (dy : Q),
      exists stage',
        handleWheel (Some stage) (Some p) dy = Some stage' /\
        let c := candidateScale (Stage.scaleX stage) dy in
        (c < 0.1 -> Stage.scaleX stage' = 0.1) /\
        (5 < c -> Stage.scaleX stage' = 5) /\
        (0.1 <= c <= 5 -> Stage.scaleX stage' = c)).
Proof.
  split.
  - revert stage Hrange. unfold wheelEvents.
    induction events as [|e events IH]; intros stage Hrange;
      cbn [fold_left].
    + exists stage. split; [reflexivity | exact Hrange].
    + destruct (handleWheel_keeps_range stage e Hrange)
        as (stage1 & Hstep & Hrange1).
      rewrite Hstep. apply IH. exact Hrange1.
  - intros p dy.
    destruct (handleWheel_pointer stage p dy) as (stage' & Heq & Hsx & _).
    exists stage'. split; [exact Heq|]. cbv zeta. rewrite Hsx.
    repeat split.
    + apply limitZoom_below.
    + apply limitZoom_above.
    + apply limitZoom_within.
Qed.

(** From scale 1, twenty wheel-in events followed by forty wheel-out
    events at the sample pointer. *)
Lemma wheelEvents_scale_in_range_witness :
  scaleInRange identityStage /\
  exists stage',
    wheelEvents (Some identityStage)
      (repeat {| pointerPosition := Some samplePointer; deltaY := -100 |} 20
       ++ repeat {| pointerPosition := Some samplePointer; deltaY := 100 |} 40)
    = Some stage' /\ scaleInRange stage'.
Proof.
  assert (Hrange : scaleInRange identityStage).
  { unfold scaleInRange. simpl. lra. }
  split; [exact Hrange|].
  exact (proj1 (wheelEvents_scale_in_range identityStage _ Hrange)).
Defined.

(** C2. For every stage whose scale is in [0.1, 5] (one scale for both
    axes), every pointer position [p] and every wheel delta, the stage
    after one wheel event maps [p] back to the same image-space point as
    the stage before, on both axes; the limited (clamped) scales are
    covered, since the delta and the old scale are arbitrary. Coordinates
    are exact rationals here, so the two points are equal; the claim's
    tolerance is the distance of the floating-point computation from this
    identity. *)
Theorem handleWheel_pointer_anchored (stage : Stage.t) (p : Vector2d.t)
  (dy : Q)
  (Hrange : 0.1 <= Stage.scaleX stage <= 5)
  (Huniform : Stage.scaleY stage == Stage.scaleX stage) :
  exists stage',
    handleWheel (Some stage) (Some p) dy = Some stage' /\
    pointEq (toImage stage' p) (toImage stage p).
Proof.
  destruct (handleWheel_pointer stage p dy)
    as (stage' & Heq & Hsx & Hsy & Hx & Hy).
  exists stage'. split; [exact Heq|].
  pose proof (limitZoom_range (candidateScale (Stage.scaleX stage) dy))
    as Hnew.
  rewrite <- Hsx in Hnew.
  unfold pointEq, toImage. cbn [Vector2d.x Vector2d.y].
  rewrite Hsy, Hx, Hy. unfold mousePointTo. cbn [Vector2d.x Vector2d.y].
  split.
  - field. split; lra.
  - rewrite Huniform. field. split; lra.
Qed.

(** The scenario of the specification: scale 1, offset (0, 0), pointer at
    (100, 100), one wheel-in event. *)
Lemma handleWheel_pointer_anchored_witness :
  (0.1 <= Stage.scaleX identityStage <= 5) /\
  Stage.scaleY identityStage == Stage.scaleX identityStage /\
  exists stage',
    handleWheel (Some identityStage) (Some samplePointer) (-100)
      = Some stage' /\
    pointEq (toImage stage' samplePointer)
            (toImage identityStage samplePointer).
Proof.
  assert (Hrange : 0.1 <= Stage.scaleX identityStage <= 5)
    by (simpl; lra).
  assert (Huniform : Stage.scaleY identityStage == Stage.scaleX identityStage)
    by reflexivity.
  split; [exact Hrange|]. split; [exact Huniform|].
  exact (handleWheel_pointer_anchored identityStage samplePointer (-100)
           Hrange Huniform).
Defined.

(** C10, as stated, fails at the upper limit: at scale 5 a wheel event
    with [deltaY = 0] is taken as a zoom-in step (candidate 5.5), the
    candidate is limited back to 5 and the stage is left as it was. *)
Lemma zero_delta_noop_at_max_zoom_counterexample :
  scaleInRange maxZoomStage /\
  candidateScale (Stage.scaleX maxZoomStage) 0 == 5.5 /\
  wheelLeavesViewport maxZoomStage (Some samplePointer) 0 /\
  ~ (forall stage p,
        scaleInRange stage -> ~ wheelLeavesViewport stage (Some p) 0).
Proof.
  assert (Hrange : scaleInRange maxZoomStage).
  { unfold scaleInRange. simpl. lra. }
  assert (Hnoop : wheelLeavesViewport maxZoomStage (Some samplePointer) 0).
  { unfold wheelLeavesViewport, stageEq. vm_compute. repeat split. }
  split; [exact Hrange|]. split; [reflexivity|]. split; [exact Hnoop|].
  intros Hall. exact (Hall maxZoomStage samplePointer Hrange Hnoop).
Qed.

(** C10, amended. A wheel event whose [deltaY] is 0 takes the zoom-in
    branch (only a strictly positive [deltaY] zooms out): with a pointer
    position the new scale is the old scale times 1.1, limited to
    [0.1, 5]. From a scale in [0.1, 5) the scale grows strictly, so the
    event is not a no-op; at scale 5 the limit gives 5 again and the stage
    is left as it was; without a pointer position the handler returns
    before touching the stage. *)
Theorem handleWheel_zero_delta (stage : Stage.t)
  (pointer : option Vector2d.t) (dy : Q) (Hzero : dy == 0) :
  match pointer with
  | None => handleWheel (Some stage) None dy = Some stage
  | Some p =>
      exists stage',
        handleWheel (Some stage) (Some p) dy = Some stage' /\
        Stage.scaleX stage' = limitZoom (Stage.scaleX stage * 1.1) /\
        (0.1 <= Stage.scaleX stage -> Stage.scaleX stage < 5 ->
         Stage.scaleX stage < Stage.scaleX stage') /\
        (Stage.scaleX stage == 5 -> Stage.scaleY stage == 5 ->
         stageEq stage' stage)
  end.
Proof.
  destruct pointer as [p|]; [|reflexivity].
  destruct (handleWheel_pointer stage p dy)
    as (stage' & Heq & Hsx & Hsy & Hx & Hy).
  assert (Hcand : candidateScale (Stage.scaleX stage) dy =
                  Stage.scaleX stage * 1.1).
  { unfold candidateScale, Qgtb.
    assert (Hdir : Qltb 0 dy = false) by (apply Qltb_ge; lra).
    rewrite Hdir. reflexivity. }
  rewrite Hcand in Hsx.
  exists stage'. split; [exact Heq|]. split; [exact Hsx|]. split.
  - intros Hlo Hhi. rewrite Hsx. unfold limitZoom, Qgtb.
    destruct (Qltb (Stage.scaleX stage * 1.1) 0.1) eqn:Hlow.
    + apply Qltb_lt in Hlow. lra.
    + destruct (Qltb 5 (Stage.scaleX stage * 1.1)) eqn:Hhigh.
      * exact Hhi.
      * lra.
  - intros Hfive HfiveY.
    assert (Hnew : Stage.scaleX stage' = 5).
    { rewrite Hsx. apply limitZoom_above. lra. }
    unfold stageEq. rewrite Hsy, Hx, Hy, Hnew. unfold mousePointTo.
    cbn [Vector2d.x Vector2d.y]. rewrite Hfive, HfiveY.
    repeat split; try reflexivity; field.
Qed.

(** At scale 1 a zero-delta wheel event at the sample pointer zooms in. *)
Lemma handleWheel_zero_delta_witness :
  0 == 0 /\
  exists stage',
    handleWheel (Some identityStage) (Some samplePointer) 0 = Some stage' /\
    Stage.scaleX identityStage < Stage.scaleX stage'.
Proof.
  assert (Hzero : 0 == 0) by reflexivity.
  split; [exact Hzero|].
  destruct (handleWheel_zero_delta identityStage (Some samplePointer) 0 Hzero)
    as (stage' & Heq & _ & Hgrow & _).
  exists stage'. split; [exact Heq|].
  apply Hgrow; simpl; lra.
Defined.

(** ** Drag and resize *)

Lemma boundBoxFunc_accepts (oldBox newBox : Box.t) :
  accepted newBox -> boundBoxFunc oldBox newBox = newBox.
Proof.
  intros [Hw Hh]. unfold boundBoxFunc.
  apply Qltb_ge in Hw, Hh. rewrite Hw, Hh. reflexivity.
Qed.

Lemma boundBoxFunc_rejects (oldBox newBox : Box.t) :
  ~ accepted newBox -> boundBoxFunc oldBox newBox = oldBox.
Proof.
  intros Hno. unfold boundBoxFunc.
  destruct (Qltb (Box.width newBox) 5) eqn:Hw; [reflexivity|].
  destruct (Qltb (Box.height newBox) 5) eqn:Hh; [reflexivity|].
  exfalso. apply Hno. split; apply Qltb_ge; assumption.
Qed.

(** The answer of [boundBoxFunc] is one of its two arguments, and it has
    width and height of at least 5 as soon as the old box has. *)
Lemma boundBoxFunc_keeps_limit (oldBox newBox : Box.t) :
  accepted oldBox -> accepted (boundBoxFunc oldBox newBox).
Proof.
  intros Hold. unfold boundBoxFunc.
  destruct (Qltb (Box.width newBox) 5) eqn:Hw; [exact Hold|].
  destruct (Qltb (Box.height newBox) 5) eqn:Hh; [exact Hold|].
  split; apply Qltb_ge; assumption.
Qed.







Section ResizeSteps.

Variable stage : Stage.t.
Variables sw w h : Q.
Hypothesis HsX : 0 < Stage.scaleX stage.
Hypothesis HsY : 0 < Stage.scaleY stage.
Hypothesis Hsw : 0 < sw.
Hypothesis Hw : 0 < w.
Hypothesis Hh : 0 < h.



End ResizeSteps.




(** * Further properties of the handlers *)

(** ** Fresh ids *)

Lemma mappedDetectionsFrom_parts (gen : nat -> string) (k : nat)
  (data : list ServerDetection) :
  map serverPart (mappedDetectionsFrom gen k data) = data /\
  map id (mappedDetectionsFrom gen k data)
    = map gen (seq k (List.length data)).
Proof.
  revert k. induction data as [|d data IH]; intros k; simpl.
  - split; reflexivity.
  - destruct (IH (S k)) as [Hparts Hids]. rewrite Hparts, Hids.
    destruct d. split; reflexivity.
Qed.

Lemma mappedDetections_parts (gen : nat -> string)
  (data : list ServerDetection) :
  map serverPart (mappedDetections gen data) = data /\
  map id (mappedDetections gen data) = map gen (seq 0 (List.length data)).
Proof. apply mappedDetectionsFrom_parts. Qed.

(** X1. Giving ids to a server list and dropping them again is the identity:
    the mapped list has the server's entries in the server's order, label,
    confidence and box untouched, and its ids are the results of the
    successive [generateId] calls. *)
Theorem mappedDetections_round_trip (gen : nat -> string)
  (data : list ServerDetection) :
  map serverPart (mappedDetections gen data) = data /\
  map id (mappedDetections gen data) = map gen (seq 0 (List.length data)) /\
  List.length (mappedDetections gen data) = List.length data.
Proof.
  unfold mappedDetections.
  destruct (mappedDetectionsFrom_parts gen 0 data) as [Hparts Hids].
  split; [exact Hparts|]. split; [exact Hids|].
  rewrite <- (length_map id), Hids, length_map, length_seq. reflexivity.
Qed.

(** X2. The ids of a mapped list are pairwise distinct as soon as the
    generator does not repeat itself over that many calls. *)
Theorem mappedDetections_ids_distinct (gen : nat -> string)
  (data : list ServerDetection)
  (Hfresh : forall j k, (j < List.length data)%nat ->
                        (k < List.length data)%nat ->
                        gen j = gen k -> j = k) :
  NoDup (map id (mappedDetections gen data)).
Proof.
  destruct (mappedDetections_parts gen data) as [_ Hids].
  rewrite Hids.
  assert (Hgen : forall n start,
             (start + n <= List.length data)%nat ->
             NoDup (map gen (seq start n))).
  { induction n as [|n IH]; intros start Hle; simpl; constructor.
    - intros Hin. apply in_map_iff in Hin. destruct Hin as (k & Hk & Hin).
      apply in_seq in Hin.
      assert (k = start) by (apply Hfresh; [lia | lia | exact Hk]).
      lia.
    - apply IH. lia. }
  apply Hgen. lia.
Qed.

Lemma mappedDetections_ids_distinct_witness :
  NoDup (map id (mappedDetections twoIds
                   [serverPart detA; serverPart detB])).
Proof.
  apply mappedDetections_ids_distinct.
  intros [|[|j]] [|[|k]] Hj Hk Heq; simpl in *;
    try reflexivity; try discriminate; lia.
Defined.

(** ** The delete key on the canonical list *)

Lemma filter_out_id_spec (sel : string) (l : list Detection) :
  ~ In sel (map id (filter (fun d => negb (id d =? sel)) l)) /\
  (forall d, In d l -> id d <> sel ->
             In d (filter (fun d => negb (id d =? sel)) l)) /\
  (~ In sel (map id l) -> filter (fun d => negb (id d =? sel)) l = l).
Proof.
  split; [|split].
  - intros Hin. apply in_map_iff in Hin. destruct Hin as (d & Hid & Hd).
    apply filter_In in Hd. destruct Hd as [_ Hne].
    apply negb_true_iff, String.eqb_neq in Hne. contradiction.
  - intros d Hd Hne. apply filter_In. split; [exact Hd|].
    apply negb_true_iff, String.eqb_neq. exact Hne.
  - intros Hnotin. apply filter_all_true. intros d Hd.
    apply negb_true_iff, String.eqb_neq. intros Heq.
    apply Hnotin. rewrite <- Heq. apply in_map. exact Hd.
Qed.

(** X4. Delete or Backspace with a selected (non-empty) id, whatever the list:
    afterwards no entry carries that id (all of them go if the id occurs
    more than once), every entry with another id is kept, in order, and
    the selection is none; if no entry carried the id the list is the
    same list (only the selection is cleared). *)
Theorem handleKeyDown_removes_every_match (st : AppState) (key sel : string)
  (Hkey : isDeleteKey key = true)
  (Hsel : selectedId st = Some sel) (Hne : sel <> "") :
  let st' := handleKeyDown key st in
  selectedId st' = None /\
  ~ In sel (map id (detections st')) /\
  subseq (detections st') (detections st) /\
  (forall d, In d (detections st) -> id d <> sel ->
             In d (detections st')) /\
  (~ In sel (map id (detections st)) -> detections st' = detections st).
Proof.
  cbv zeta. unfold handleKeyDown. rewrite Hsel, Hkey.
  apply String.eqb_neq in Hne. rewrite Hne.
  cbn [negb andb selectShape setDetections selectedId detections].
  destruct (filter_out_id_spec sel (detections st)) as (Hgone & Hkept & Hsame).
  split; [reflexivity|]. split; [exact Hgone|].
  split; [apply subseq_filter|]. split; assumption.
Qed.

Lemma handleKeyDown_removes_every_match_witness :
  let st := setDetections [detA; withBox detA (mkBox 0 0 9 9); detB]
              sampleState in
  detections (handleKeyDown "Backspace" st) = [detB] /\
  ~ In "a" (map id (detections (handleKeyDown "Backspace" st))).
Proof.
  cbv zeta. split; [reflexivity|].
  refine (proj1 (proj2 (handleKeyDown_removes_every_match
                          (setDetections
                             [detA; withBox detA (mkBox 0 0 9 9); detB]
                             sampleState)
                          "Backspace" "a" eq_refl eq_refl _))).
  discriminate.
Defined.

(** X5. After a Delete or Backspace press any further key press changes
    nothing: the first press has cleared the selection (or there was
    none). *)
Theorem handleKeyDown_second_press (st : AppState) (key1 key2 : string)
  (Hkey : isDeleteKey key1 = true) :
  handleKeyDown key2 (handleKeyDown key1 st) = handleKeyDown key1 st.
Proof.
  unfold handleKeyDown at 2 3.
  destruct (selectedId st) as [sel|] eqn:Hsel.
  - rewrite Hkey. destruct (sel =? "") eqn:Hempty; simpl.
    + unfold handleKeyDown. rewrite Hsel, Hempty, andb_false_r. reflexivity.
    + reflexivity.
  - unfold handleKeyDown. rewrite Hsel. reflexivity.
Qed.

Lemma handleKeyDown_second_press_witness :
  handleKeyDown "x" (handleKeyDown "Delete" sampleState)
    = handleKeyDown "Delete" sampleState /\
  handleKeyDown "Delete" (handleKeyDown "Delete" sampleState)
    = handleKeyDown "Delete" sampleState.
Proof.
  split; apply handleKeyDown_second_press; reflexivity.
Defined.




(** ** Saving *)

Lemma saveAnnotations_cases (ok : bool) (hist : option (list HistoryItem.t))
  (st : AppState) :
  saveAnnotations ok hist st = st \/
  exists h, saveAnnotations ok hist st = setHistory h st.
Proof.
  unfold saveAnnotations.
  destruct (currentImageId st) as [c|]; [|left; reflexivity].
  destruct (c =? 0)%Z; [left; reflexivity|].
  destruct ok; [|left; reflexivity].
  destruct hist as [h|]; [right; exists h|left]; reflexivity.
Qed.

(** X8. A request that fails leaves the state alone. A failed save, a
    failed delete and a failed history refresh return the very state they
    started from; a failed detect returns it with the loading flag down
    (and untouched when no file is chosen, where no request is made). *)
Theorem failed_requests_leave_state (gen : nat -> string)
  (hist : option (list HistoryItem.t)) (i : Z) (st : AppState) :
  saveAnnotations false hist st = st /\
  deleteHistoryItem i false st = st /\
  fetchHistory None st = st /\
  handleDetect gen None hist st
    = match file st with
      | None => st
      | Some _ => setIsLoading false st
      end.
Proof.
  split; [|split; [|split]].
  - unfold saveAnnotations.
    destruct (currentImageId st) as [c|]; [|reflexivity].
    destruct (c =? 0)%Z; reflexivity.
  - reflexivity.
  - reflexivity.
  - unfold handleDetect. destruct (file st); reflexivity.
Qed.

(** X9. Saving never changes what is being edited: whatever the outcome of
    the request and of the history refresh, image id, image source,
    detections, selection and threshold are as before; only the history
    list can change. *)
Theorem saveAnnotations_keeps_document (ok : bool)
  (hist : option (list HistoryItem.t)) (st : AppState) :
  let st' := saveAnnotations ok hist st in
  sameDocument st' st /\
  selectedId st' = selectedId st /\
  confidenceThreshold st' = confidenceThreshold st /\
  file st' = file st /\
  visibleDetections st' = visibleDetections st.
Proof.
  cbv zeta. destruct (saveAnnotations_cases ok hist st) as [->|[h ->]];
    unfold sameDocument; repeat split.
Qed.

(** X10. The navbar buttons are rendered exactly when [saveAnnotations] would
    send a request, and the request carries the current image id with the
    whole canonical list; when no request is sent the handler leaves the
    state alone (no history refresh either). *)
Theorem save_guard_matches_nav_actions (st : AppState) :
  (navActionsShown st = true <-> saveAnnotationsRequest st <> None) /\
  (forall c body, saveAnnotationsRequest st = Some (c, body) ->
                  currentImageId st = Some c /\ c <> 0%Z /\
                  body = detections st) /\
  (saveAnnotationsRequest st = None ->
   forall ok hist, saveAnnotations ok hist st = st).
Proof.
  unfold navActionsShown, saveAnnotationsRequest, saveAnnotations.
  destruct (currentImageId st) as [c|].
  - destruct (c =? 0)%Z eqn:Hc; simpl.
    + split; [split; [discriminate | congruence]|].
      split; [discriminate | reflexivity].
    + apply Z.eqb_neq in Hc.
      split; [split; [discriminate | reflexivity]|].
      split; [|discriminate].
      intros c' body Hreq. injection Hreq as <- <-. auto.
  - split; [split; [discriminate | congruence]|].
    split; [discriminate | reflexivity].
Qed.

(** X11. An image the server files under id 0 cannot be saved: after a
    successful detect whose [image_id] is 0 the navbar buttons are not
    rendered and [saveAnnotations] sends nothing and changes nothing. *)
Theorem detect_image_id_zero_blocks_save (gen : nat -> string)
  (r : DetectResponse) (hist : option (list HistoryItem.t)) (st : AppState)
  (Hfile : file st <> None) (Hzero : image_id r = 0%Z) :
  let st' := handleDetect gen (Some r) hist st in
  currentImageId st' = Some 0%Z /\
  detections st' = mappedDetections gen (r_detections r) /\
  navActionsShown st' = false /\
  saveAnnotationsRequest st' = None /\
  (forall ok h, saveAnnotations ok h st' = st').
Proof.
  cbv zeta.
  assert (Hid : currentImageId (handleDetect gen (Some r) hist st)
                = Some 0%Z).
  { unfold handleDetect. destruct (file st); [|contradiction].
    rewrite <- Hzero. destruct hist; reflexivity. }
  split; [exact Hid|]. split.
  - unfold handleDetect. destruct (file st); [|contradiction].
    destruct hist; reflexivity.
  - unfold navActionsShown, saveAnnotationsRequest, saveAnnotations.
    rewrite Hid. repeat split.
Qed.

Lemma detect_image_id_zero_blocks_save_witness :
  let r := {| image_id := 0; r_detections := [serverPart detA] |} in
  navActionsShown (handleDetect twoIds (Some r) None sampleState) = false /\
  saveAnnotationsRequest (handleDetect twoIds (Some r) None sampleState)
    = None.
Proof.
  cbv zeta.
  assert (Hfile : file sampleState <> None) by discriminate.
  destruct (detect_image_id_zero_blocks_save twoIds
              {| image_id := 0; r_detections := [serverPart detA] |}
              None sampleState Hfile eq_refl)
    as (_ & _ & Hnav & Hreq & _).
  split; [exact Hnav | exact Hreq].
Defined.

(** X12. After a failed history load of image [i] the next save is addressed
    to image [i] and carries the detections that were on screen before the
    load, those of the image open until then. *)
Theorem save_after_failed_load (gen : nat -> string) (i : Z)
  (st : AppState) (Hi : i <> 0%Z) :
  saveAnnotationsRequest (loadHistoryItem gen i None st)
    = Some (i, detections st).
Proof.
  unfold saveAnnotationsRequest, loadHistoryItem.
  cbn [currentImageId detections setIsLoading setImageSrc setCurrentImageId].
  apply Z.eqb_neq in Hi. rewrite Hi. reflexivity.
Qed.

Lemma save_after_failed_load_witness :
  currentImageId sampleState = Some 1%Z /\
  saveAnnotationsRequest (loadHistoryItem twoIds 2 None sampleState)
    = Some (2%Z, [detA; detB]).
Proof.
  split; [reflexivity|].
  apply (save_after_failed_load twoIds 2 sampleState). discriminate.
Defined.

(** X13. Choosing a file empties the document: no detections, nothing
    visible, no image id, so the navbar buttons disappear and a save sends
    nothing until a detect succeeds; the file is the first of the chosen
    ones and the detect button is enabled unless a request is running. An
    empty choice changes nothing. *)
Theorem handleFileChange_resets_document (files : list File)
  (objectUrl : string) (st : AppState) :
  match files with
  | [] => handleFileChange files objectUrl st = st
  | selectedFile :: _ =>
      let st' := handleFileChange files objectUrl st in
      file st' = Some selectedFile /\
      imageSrc st' = Some objectUrl /\
      detections st' = [] /\
      visibleDetections st' = [] /\
      navActionsShown st' = false /\
      saveAnnotationsRequest st' = None /\
      detectDisabled st' = isLoading st /\
      history st' = history st
  end.
Proof.
  destruct files as [|f rest]; [reflexivity|].
  cbv zeta. repeat split.
Qed.

(** ** History *)

(** X14. A successful delete of history item [i]: no item with id [i] is left
    in the history, the other items stay, in order. If [i] is the open
    image the document is closed (no id, no source, no detections),
    otherwise the document is untouched. The chosen file and the selection
    are left as they were in both cases. *)
Theorem deleteHistoryItem_success (i : Z) (st : AppState) :
  let st' := deleteHistoryItem i true st in
  ~ In i (map HistoryItem.id (history st')) /\
  subseq (history st') (history st) /\
  (forall h, In h (history st) -> HistoryItem.id h <> i ->
             In h (history st')) /\
  (currentImageId st = Some i ->
   currentImageId st' = None /\ imageSrc st' = None /\
   detections st' = [] /\ navActionsShown st' = false) /\
  (currentImageId st <> Some i -> sameDocument st' st) /\
  file st' = file st /\
  selectedId st' = selectedId st.
Proof.
  cbv zeta.
  assert (Hhist : history (deleteHistoryItem i true st) =
                  filter (fun h => negb (HistoryItem.id h =? i)%Z)
                         (history st)).
  { unfold deleteHistoryItem. destruct (currentImageId st) as [c|];
      [destruct (c =? i)%Z|]; reflexivity. }
  rewrite Hhist. split; [|split; [|split; [|split; [|split; [|split]]]]].
  - intros Hin. apply in_map_iff in Hin. destruct Hin as (h & Hid & Hh).
    apply filter_In in Hh. destruct Hh as [_ Hne].
    apply negb_true_iff, Z.eqb_neq in Hne. contradiction.
  - apply subseq_filter.
  - intros h Hh Hne. apply filter_In. split; [exact Hh|].
    apply negb_true_iff, Z.eqb_neq. exact Hne.
  - intros Hcur. unfold deleteHistoryItem, navActionsShown.
    rewrite Hcur, Z.eqb_refl. repeat split.
  - intros Hcur. unfold deleteHistoryItem, sameDocument.
    destruct (currentImageId st) as [c|] eqn:Hc;
      [|repeat split; exact Hc].
    destruct (c =? i)%Z eqn:Hci; [|repeat split; exact Hc].
    apply Z.eqb_eq in Hci. congruence.
  - unfold deleteHistoryItem. destruct (currentImageId st) as [c|];
      [destruct (c =? i)%Z|]; reflexivity.
  - unfold deleteHistoryItem. destruct (currentImageId st) as [c|];
      [destruct (c =? i)%Z|]; reflexivity.
Qed.

(** ** The loading flag and the detect button *)

(** X15. Both requests that raise the loading flag lower it again, on success
    and on failure. After a history load the detect button is disabled
    exactly when no file is chosen, which is always so after a successful
    load (it clears the file); after a detect with a file chosen the
    button is enabled again. Without a file [handleDetect] does nothing,
    whatever response it is given. *)
Theorem requests_release_loading (gen : nat -> string) (i : Z)
  (res : option (list ServerDetection)) (response : option DetectResponse)
  (hist : option (list HistoryItem.t)) (st : AppState) :
  isLoading (loadHistoryItem gen i res st) = false /\
  (forall data, detectDisabled (loadHistoryItem gen i (Some data) st)
                = true) /\
  (forall data,
      handleDetect gen response hist (loadHistoryItem gen i (Some data) st)
      = loadHistoryItem gen i (Some data) st) /\
  (file st = None -> handleDetect gen response hist st = st) /\
  (file st <> None ->
   isLoading (handleDetect gen response hist st) = false /\
   detectDisabled (handleDetect gen response hist st) = false).
Proof.
  split; [destruct res; reflexivity|].
  split; [reflexivity|]. split; [reflexivity|]. split.
  - intros Hnone. unfold handleDetect. rewrite Hnone. reflexivity.
  - intros Hfile. unfold handleDetect, detectDisabled.
    destruct (file st) as [f|] eqn:Hf; [|contradiction].
    destruct response as [r|]; [destruct hist|]; simpl; rewrite Hf;
      split; reflexivity.
Qed.

(** ** A selection that outlives the list *)



(** ** The threshold *)

Lemma subseq_length {A : Type} (l1 l2 : list A) :
  subseq l1 l2 -> (List.length l1 <= List.length l2)%nat.
Proof. induction 1; simpl; lia. Qed.

Lemma filter_filter_implied {A : Type} (f g : A -> bool) (l : list A) :
  (forall a, f a = true -> g a = true) ->
  filter f (filter g l) = filter f l.
Proof.
  intros Himp. induction l as [|a l IH]; [reflexivity|]. simpl.
  destruct (g a) eqn:Eg; simpl.
  - destruct (f a); rewrite IH; reflexivity.
  - destruct (f a) eqn:Ef; [|exact IH].
    rewrite (Himp a Ef) in Eg. discriminate.
Qed.

Lemma filter_id_iff {A : Type} (f : A -> bool) (l : list A) :
  filter f l = l <-> forall a, In a l -> f a = true.
Proof.
  split; [|apply filter_all_true].
  induction l as [|a l IH]; intros Heq b Hb; [contradiction|].
  simpl in Heq. destruct (f a) eqn:Ef.
  - injection Heq as Heq. destruct Hb as [<-|Hb]; [exact Ef|].
    apply IH; assumption.
  - pose proof (subseq_length _ _ (subseq_filter f l)) as Hle.
    rewrite Heq in Hle. simpl in Hle. lia.
Qed.

Lemma filter_nil_iff {A : Type} (f : A -> bool) (l : list A) :
  filter f l = [] <-> forall a, In a l -> f a = false.
Proof.
  induction l as [|a l IH]; simpl.
  - split; [intros _ b []|reflexivity].
  - destruct (f a) eqn:Ef.
    + split; [discriminate|]. intros Hall.
      rewrite (Hall a (or_introl eq_refl)) in Ef. discriminate.
    + rewrite IH. split.
      * intros Hall b [<-|Hb]; [exact Ef | apply Hall; exact Hb].
      * intros Hall b Hb. apply Hall. right. exact Hb.
Qed.

(** X16. Raising the threshold only takes entries out of the view: the view at
    a higher threshold is a sub-sequence of the view at a lower one, and
    is what filtering the lower view at the higher threshold gives. *)
Theorem visibleDetections_antitone (st : AppState) (t1 t2 : Q)
  (Hle : t1 <= t2) :
  let low := visibleDetections (setConfidenceThreshold t1 st) in
  let high := visibleDetections (setConfidenceThreshold t2 st) in
  subseq high low /\
  (List.length high <= List.length low)%nat /\
  high = filter (fun d => Qgeb (confidence d) t2) low.
Proof.
  cbv zeta. unfold visibleDetections.
  cbn [setConfidenceThreshold detections confidenceThreshold].
  assert (Heq : filter (fun d => Qgeb (confidence d) t2) (detections st) =
                filter (fun d => Qgeb (confidence d) t2)
                  (filter (fun d => Qgeb (confidence d) t1)
                          (detections st))).
  { symmetry. apply filter_filter_implied. intros d Hd.
    apply Qgeb_ge in Hd. apply Qgeb_ge. lra. }
  assert (Hsub : subseq
            (filter (fun d => Qgeb (confidence d) t2) (detections st))
            (filter (fun d => Qgeb (confidence d) t1) (detections st))).
  { rewrite Heq. apply subseq_filter. }
  split; [exact Hsub|]. split; [apply subseq_length; exact Hsub | exact Heq].
Qed.

Lemma visibleDetections_antitone_witness :
  subseq (visibleDetections (setConfidenceThreshold 0.5 sampleState))
         (visibleDetections (setConfidenceThreshold 0.1 sampleState)).
Proof.
  refine (proj1 (visibleDetections_antitone sampleState 0.1 0.5 _)).
  lra.
Defined.

(** X17. The view is the whole list exactly when no confidence is under the
    threshold, and it is empty (the "No detections visible" placeholder)
    exactly when every confidence is under it. *)
Theorem visibleDetections_all_or_none (st : AppState) :
  (visibleDetections st = detections st <->
   forall d, In d (detections st) ->
             confidenceThreshold st <= confidence d) /\
  (visibleDetections st = [] <->
   forall d, In d (detections st) ->
             confidence d < confidenceThreshold st).
Proof.
  unfold visibleDetections. rewrite filter_id_iff, filter_nil_iff.
  split; split; intros Hall d Hd; specialize (Hall d Hd).
  - apply Qgeb_ge. exact Hall.
  - apply Qgeb_ge. exact Hall.
  - apply Qltb_lt. unfold Qltb, Qgeb in *. rewrite Hall. reflexivity.
  - apply Qltb_lt in Hall. unfold Qltb, Qgeb in *.
    apply negb_true_iff. exact Hall.
Qed.

(** ** Export *)

Lemma jsonOfDetection_injective (d1 d2 : Detection) :
  jsonOfDetection d1 = jsonOfDetection d2 -> d1 = d2.
Proof.
  destruct d1 as [i1 l1 c1 [a1 b1 e1 f1]], d2 as [i2 l2 c2 [a2 b2 e2 f2]].
  unfold jsonOfDetection, jsonOfBox. simpl. intros H.
  injection H as -> -> -> -> -> -> ->. reflexivity.
Qed.

Lemma map_injective_list {A B : Type} (f : A -> B) :
  (forall a b, f a = f b -> a = b) ->
  forall l1 l2, map f l1 = map f l2 -> l1 = l2.
Proof.
  intros Hf. induction l1 as [|a l1 IH]; intros [|b l2] H;
    try discriminate; [reflexivity|].
  cbn [map] in H.
  assert (Hhead : f a = f b) by exact (f_equal (hd (f a)) H).
  assert (Htail : map f l1 = map f l2) by exact (f_equal (@tl B) H).
  f_equal; [apply Hf; exact Hhead | apply IH; exact Htail].
Qed.

(** X18. The export loses nothing: two states with the same export have the
    same canonical list, ids and hidden entries included; and the export
    does not depend on the threshold or on the selection. *)
Theorem exportData_injective (st1 st2 : AppState) :
  (exportData st1 = exportData st2 -> detections st1 = detections st2) /\
  (forall t sel,
      exportData (selectShape sel (setConfidenceThreshold t st1))
      = exportData st1).
Proof.
  split; [|reflexivity].
  unfold exportData. intros H.
  apply (map_injective_list jsonOfDetection jsonOfDetection_injective).
  exact (f_equal jsonItems H).
Qed.

(** ** The commit handlers on the list they are given *)

Lemma newDetections_fields (ds : list Detection) (i : string)
  (b : BoundingBox) :
  map label (newDetections ds i b) = map label ds /\
  map confidence (newDetections ds i b) = map confidence ds /\
  map box (newDetections ds i b)
    = map (fun d => if id d =? i then b else box d) ds.
Proof.
  unfold newDetections. rewrite !map_map.
  repeat split; apply map_ext; intros d; destruct (id d =? i); reflexivity.
Qed.

Lemma newDetections_missing (ds : list Detection) (i : string)
  (b : BoundingBox) :
  ~ In i (map id ds) -> newDetections ds i b = ds.
Proof.
  intros Hnotin. unfold newDetections.
  rewrite <- (map_id ds) at 2. apply map_ext_in. intros d Hd.
  destruct (String.eqb_spec (id d) i) as [Heq|_]; [|reflexivity].
  exfalso. apply Hnotin. rewrite <- Heq. apply in_map. exact Hd.
Qed.

(** X19. [handleDragEnd] and [handleTransformEnd] hand the same list to
    [setDetections]: the list they were given with the same ids, labels
    and confidences in the same order, where every entry with the target
    id has the box read off the node (position, and size times scale) and
    every other entry its old box. An id that is not in the list changes
    nothing. The node is left with scale 1 and its position and size. *)
Theorem commit_handlers_frame (ds : list Detection) (node : Node.t)
  (i : string) :
  let r := fst (handleTransformEnd ds node i) in
  fst (handleDragEnd ds node i) = r /\
  map id r = map id ds /\
  map label r = map label ds /\
  map confidence r = map confidence ds /\
  map box r = map (fun d => if id d =? i then newBoxOf node else box d) ds /\
  (~ In i (map id ds) -> r = ds) /\
  snd (handleTransformEnd ds node i) = resetScale node /\
  snd (handleDragEnd ds node i) = resetScale node.
Proof.
  cbv zeta. unfold handleTransformEnd, handleDragEnd. cbn [fst snd].
  fold (newBoxOf node).
  destruct (newDetections_fields ds i (newBoxOf node)) as (Hl & Hc & Hb).
  split; [reflexivity|]. split; [apply newDetections_ids|].
  split; [exact Hl|]. split; [exact Hc|]. split; [exact Hb|].
  split; [apply newDetections_missing|]. split; reflexivity.
Qed.

(** ** The commit through [App] *)

(** X20. What a drag or resize commit stores, for every state and threshold:
    both handlers store the same list; it has the ids of the visible view
    and nothing else, as many entries as there are entries at or above
    the threshold; every stored entry is at or above the threshold, so
    after the commit the view is the whole stored list. *)
Theorem canvas_commit_stores_view (node : Node.t) (i : string)
  (st : AppState) :
  let st' := canvasDragEnd node i st in
  canvasTransformEnd node i st = st' /\
  map id (detections st') = map id (visibleDetections st) /\
  List.length (detections st')
    = countAtLeast (confidenceThreshold st) (detections st) /\
  (forall d, In d (detections st') ->
             confidenceThreshold st <= confidence d) /\
  visibleDetections st' = detections st'.
Proof.
  cbv zeta. split; [reflexivity|].
  rewrite canvasDragEnd_detections.
  split; [apply newDetections_ids|]. split.
  - rewrite <- (length_map id), newDetections_ids, length_map.
    apply length_filter_countAtLeast.
  - assert (Hall : forall d,
               In d (newDetections (visibleDetections st) i (newBoxOf node))
               -> confidenceThreshold st <= confidence d).
    { intros d Hd. unfold newDetections in Hd. apply in_map_iff in Hd.
      destruct Hd as (d0 & Heq & Hd0).
      unfold visibleDetections in Hd0. apply filter_In in Hd0.
      destruct Hd0 as [_ Hvis]. apply Qgeb_ge in Hvis.
      destruct (id d0 =? i); subst d; exact Hvis. }
    split; [exact Hall|].
    unfold visibleDetections at 1.
    change (detections (canvasDragEnd node i st))
      with (newDetections (visibleDetections st) i (newBoxOf node)).
    change (confidenceThreshold (canvasDragEnd node i st))
      with (confidenceThreshold st).
    apply filter_all_true. intros d Hd. apply Qgeb_ge, Hall, Hd.
Qed.

(** X21. With no entry under the threshold a drag or resize commit is the
    update of the canonical list: ids, labels and confidences as before,
    in order; the entries with the target id get the box read off the
    node, every other entry keeps its box. *)
Theorem canvas_commit_nothing_hidden (node : Node.t) (i : string)
  (st : AppState)
  (Hall : forall d, In d (detections st) ->
                    confidenceThreshold st <= confidence d) :
  let ds' := detections (canvasTransformEnd node i st) in
  ds' = detections (canvasDragEnd node i st) /\
  map id ds' = map id (detections st) /\
  map label ds' = map label (detections st) /\
  map confidence ds' = map confidence (detections st) /\
  map box ds' = map (fun d => if id d =? i then newBoxOf node else box d)
                    (detections st).
Proof.
  cbv zeta.
  assert (Hvis : visibleDetections st = detections st).
  { unfold visibleDetections. apply filter_all_true.
    intros d Hd. apply Qgeb_ge, Hall, Hd. }
  change (detections (canvasTransformEnd node i st))
    with (newDetections (visibleDetections st) i (newBoxOf node)).
  rewrite canvasDragEnd_detections, Hvis.
  destruct (newDetections_fields (detections st) i (newBoxOf node))
    as (Hl & Hc & Hb).
  split; [reflexivity|]. split; [apply newDetections_ids|].
  split; [exact Hl|]. split; [exact Hc | exact Hb].
Qed.

Lemma canvas_commit_nothing_hidden_witness :
  let st := setConfidenceThreshold 0.1 sampleState in
  map id (detections
            (canvasTransformEnd (dragTo (rectOf detA) 100 100) "a" st))
  = ["a"; "b"].
Proof.
  cbv zeta.
  refine (eq_trans
            (proj1 (proj2 (canvas_commit_nothing_hidden
                             (dragTo (rectOf detA) 100 100) "a"
                             (setConfidenceThreshold 0.1 sampleState) _)))
            eq_refl).
  intros d [<-|[<-|[]]]; simpl; lra.
Defined.

(** ** Rendering a box and reading it back *)

(** X22. The [Rect] props and [newBox] are inverse to each other. Reading the
    box off the freshly rendered shape of a detection gives its box again
    (a drag released where it started changes no coordinate). Rendering
    the committed box of any node gives a shape at the node's position
    whose width and height are the node's width and height times its
    scale factors, at scale 1: the scale is folded into the size. *)
Theorem rect_box_round_trip (d : Detection) (node : Node.t) :
  boxEq (newBoxOf (rectOf d)) (box d) /\
  let shown := rectOf (withBox d (newBoxOf node)) in
  Node.x shown == Node.x node /\
  Node.y shown == Node.y node /\
  Node.width shown == Node.width node * Node.scaleX node /\
  Node.height shown == Node.height node * Node.scaleY node /\
  Node.scaleX shown = 1 /\ Node.scaleY shown = 1 /\
  boxEq (newBoxOf shown) (newBoxOf node).
Proof.
  unfold boxEq, newBoxOf, rectOf, withBox. cbn.
  repeat split; try reflexivity; ring.
Qed.

(** ** The resize limit over a whole gesture *)

Lemma boundBoxFunc_cases (oldBox newBox : Box.t) :
  (accepted newBox /\ boundBoxFunc oldBox newBox = newBox) \/
  (~ accepted newBox /\ boundBoxFunc oldBox newBox = oldBox).
Proof.
  unfold boundBoxFunc, accepted.
  destruct (Qltb (Box.width newBox) 5) eqn:Hw.
  - right. split; [|reflexivity]. apply Qltb_lt in Hw. intros [H _]. lra.
  - destruct (Qltb (Box.height newBox) 5) eqn:Hh.
    + right. split; [|reflexivity]. apply Qltb_lt in Hh. intros [_ H]. lra.
    + left. apply Qltb_ge in Hw, Hh. repeat split; assumption.
Qed.

(** X23. Feeding [boundBoxFunc] a run of proposed boxes, each against the
    answer to the one before: the final box is the box the run started
    from or one of the proposals with width and height of at least 5,
    never a box made up by the function; it is the last such proposal
    when the run ends with one, and the box before the last proposal when
    that one is under the limit. Position and rotation play no part, and
    a proposal of exactly 5 by 5 passes. *)
Theorem boundBoxFunc_chain (oldBox : Box.t) (proposals : list Box.t)
  (p : Box.t) :
  let final := fold_left boundBoxFunc proposals oldBox in
  (final = oldBox \/ (In final proposals /\ accepted final)) /\
  (accepted oldBox -> accepted final) /\
  (accepted p -> fold_left boundBoxFunc (proposals ++ [p]) oldBox = p) /\
  (~ accepted p -> fold_left boundBoxFunc (proposals ++ [p]) oldBox = final) /\
  (Box.width p == 5 -> Box.height p == 5 -> accepted p).
Proof.
  cbv zeta. split; [|split; [|split; [|split]]].
  - revert oldBox. induction proposals as [|q qs IH]; intros oldBox.
    + left. reflexivity.
    + cbn [fold_left].
      destruct (IH (boundBoxFunc oldBox q)) as [Heq|[Hin Hacc]].
      * rewrite Heq.
        destruct (boundBoxFunc_cases oldBox q) as [[Hq ->]|[_ ->]].
        -- right. split; [left; reflexivity | exact Hq].
        -- left. reflexivity.
      * right. split; [right; exact Hin | exact Hacc].
  - revert oldBox. induction proposals as [|q qs IH]; intros oldBox Hold.
    + exact Hold.
    + cbn [fold_left]. apply IH. apply boundBoxFunc_keeps_limit. exact Hold.
  - intros Hp. rewrite fold_left_app. cbn [fold_left].
    apply boundBoxFunc_accepts. exact Hp.
  - intros Hp. rewrite fold_left_app. cbn [fold_left].
    apply boundBoxFunc_rejects. exact Hp.
  - intros Hw Hh. unfold accepted. rewrite Hw, Hh. split; apply Qle_refl.
Qed.

(** ** Binding the transformer *)

Lemma transformerEffect_present (rendered : list Detection) (sel : string) :
  sel <> "" -> In sel (map id rendered) ->
  transformerEffect true (Some sel) rendered = Some [sel].
Proof.
  intros Hne Hin. unfold transformerEffect.
  apply String.eqb_neq in Hne. rewrite Hne. cbn [negb andb].
  destruct (find (fun d => id d =? sel) rendered) as [d|] eqn:Hfind.
  - apply find_some in Hfind. destruct Hfind as [_ Hid].
    apply String.eqb_eq in Hid. rewrite Hid. reflexivity.
  - exfalso. apply in_map_iff in Hin. destruct Hin as (d & Hid & Hd).
    pose proof (find_none _ _ Hfind d Hd) as Hno. cbv beta in Hno.
    rewrite Hid, String.eqb_refl in Hno. discriminate.
Qed.

Lemma transformerEffect_absent (rendered : list Detection) (sel : string) :
  sel <> "" -> ~ In sel (map id rendered) ->
  transformerEffect true (Some sel) rendered = None.
Proof.
  intros Hne Hin. unfold transformerEffect.
  apply String.eqb_neq in Hne. rewrite Hne. cbn [negb andb].
  destruct (find (fun d => id d =? sel) rendered) as [d|] eqn:Hfind;
    [|reflexivity].
  exfalso. apply find_some in Hfind. destruct Hfind as [Hd Hid].
  apply String.eqb_eq in Hid. apply Hin. rewrite <- Hid.
  apply in_map. exact Hd.
Qed.

(** X24. What the effect on the selection does to the transformer of a mounted
    canvas. With nothing selected it detaches it. With a selected id that
    one of the rendered detections carries it attaches it to that shape
    alone. With a selected id that no rendered detection carries (the
    entry is under the threshold, or gone) it makes no call at all, so
    the transformer stays on whatever it was attached to. Before an image
    is shown it makes no call either. *)
Theorem transformerEffect_cases (selected : option string)
  (rendered : list Detection) (sel : string) :
  transformerEffect true None rendered = Some [] /\
  transformerEffect true (Some "") rendered = Some [] /\
  transformerEffect false selected rendered = None /\
  (sel <> "" -> In sel (map id rendered) ->
   transformerEffect true (Some sel) rendered = Some [sel]) /\
  (sel <> "" -> ~ In sel (map id rendered) ->
   transformerEffect true (Some sel) rendered = None).
Proof.
  split; [reflexivity|]. split; [reflexivity|]. split.
  - unfold transformerEffect. rewrite andb_false_r. reflexivity.
  - split; [apply transformerEffect_present | apply transformerEffect_absent].
Qed.



(** ** More on zoom *)

(** Linear arithmetic after turning a division by 1.1 into a product. *)
Ltac scale_lra :=
  unfold scaleBy, Qdiv in *;
  change (/ 1.1) with (10 # 11) in *;
  lra.

Lemma candidateScale_in (s dy : Q) :
  dy <= 0 -> candidateScale s dy = s * scaleBy.
Proof.
  intros Hdy. unfold candidateScale, Qgtb.
  apply Qltb_ge in Hdy. rewrite Hdy. reflexivity.
Qed.

Lemma candidateScale_out (s dy : Q) :
  0 < dy -> candidateScale s dy = s / scaleBy.
Proof.
  intros Hdy. unfold candidateScale, Qgtb.
  apply Qltb_lt in Hdy. rewrite Hdy. reflexivity.
Qed.

Lemma limitZoom_le (c s : Q) : 0.1 <= s -> c <= s -> limitZoom c <= s.
Proof.
  intros Hs Hc. unfold limitZoom, Qgtb.
  destruct (Qltb c 0.1) eqn:Hlow.
  - exact Hs.
  - destruct (Qltb 5 c) eqn:Hhigh; [|exact Hc].
    apply Qltb_lt in Hhigh. lra.
Qed.

Lemma limitZoom_ge (c s : Q) : s <= 5 -> s <= c -> s <= limitZoom c.
Proof.
  intros Hs Hc. unfold limitZoom, Qgtb.
  destruct (Qltb c 0.1) eqn:Hlow.
  - apply Qltb_lt in Hlow. change (s <= 0.1). lra.
  - destruct (Qltb 5 c) eqn:Hhigh; [exact Hs | exact Hc].
Qed.

(** X26. From a scale in [0.1, 5] a wheel event never moves the scale against
    its direction: a positive [deltaY] does not increase it, a zero or
    negative [deltaY] does not decrease it; and both scale attributes of
    the stage are the same number afterwards. *)
Theorem handleWheel_direction (stage : Stage.t) (p : Vector2d.t) (dy : Q)
  (Hrange : 0.1 <= Stage.scaleX stage <= 5) :
  exists stage',
    handleWheel (Some stage) (Some p) dy = Some stage' /\
    (0 < dy -> Stage.scaleX stage' <= Stage.scaleX stage) /\
    (dy <= 0 -> Stage.scaleX stage <= Stage.scaleX stage') /\
    Stage.scaleY stage' = Stage.scaleX stage'.
Proof.
  destruct (handleWheel_pointer stage p dy)
    as (stage' & Heq & Hsx & Hsy & _).
  exists stage'. split; [exact Heq|]. rewrite Hsx.
  destruct Hrange as [Hlo Hhi].
  split; [|split; [|rewrite <- Hsx; exact Hsy]].
  - intros Hdy. rewrite (candidateScale_out _ _ Hdy).
    apply limitZoom_le; [lra|]. scale_lra.
  - intros Hdy. rewrite (candidateScale_in _ _ Hdy).
    apply limitZoom_ge; [lra|]. scale_lra.
Qed.

Lemma handleWheel_direction_witness :
  exists stage',
    handleWheel (Some identityStage) (Some samplePointer) 3 = Some stage' /\
    Stage.scaleX stage' <= Stage.scaleX identityStage.
Proof.
  assert (Hrange : 0.1 <= Stage.scaleX identityStage <= 5)
    by (simpl; lra).
  destruct (handleWheel_direction identityStage samplePointer 3 Hrange)
    as (stage' & Heq & Hout & _).
  exists stage'. split; [exact Heq|]. apply Hout. lra.
Defined.

(** X27. A zoom-in step followed by a zoom-out step at the same pointer
    position brings the viewport back (scale and offset), as long as the
    zoom-in step is not limited; likewise a zoom-out step followed by a
    zoom-in step, as long as the zoom-out step is not limited. *)
Theorem zoom_round_trip (stage : Stage.t) (p : Vector2d.t)
  (Huniform : Stage.scaleY stage == Stage.scaleX stage) :
  (0.1 <= Stage.scaleX stage -> Stage.scaleX stage * 1.1 <= 5 ->
   exists stage',
     wheelEvents (Some stage) [wheelIn p; wheelOut p] = Some stage' /\
     stageEq stage' stage) /\
  (0.1 <= Stage.scaleX stage / 1.1 -> Stage.scaleX stage <= 5 ->
   exists stage',
     wheelEvents (Some stage) [wheelOut p; wheelIn p] = Some stage' /\
     stageEq stage' stage).
Proof.
  assert (Hin : forall s, candidateScale s (-100) = s * scaleBy)
    by (intros s; apply candidateScale_in; lra).
  assert (Hout : forall s, candidateScale s 100 = s / scaleBy)
    by (intros s; apply candidateScale_out; lra).
  split; intros Hlo Hhi; unfold wheelEvents, wheelIn, wheelOut;
    cbn [fold_left pointerPosition deltaY].
  - destruct (handleWheel_pointer stage p (-100))
      as (s1 & Heq1 & Hsx1 & Hsy1 & Hx1 & Hy1).
    rewrite Heq1.
    destruct (handleWheel_pointer s1 p 100)
      as (s2 & Heq2 & Hsx2 & Hsy2 & Hx2 & Hy2).
    exists s2. split; [exact Heq2|].
    rewrite Hin, limitZoom_within in Hsx1 by scale_lra.
    assert (Hback : Stage.scaleX s1 / scaleBy == Stage.scaleX stage)
      by (rewrite Hsx1; unfold scaleBy; field).
    rewrite Hout, limitZoom_within in Hsx2
      by (rewrite Hback; scale_lra).
    unfold stageEq. rewrite Hsy2, Hx2, Hy2, Hsx2.
    unfold mousePointTo. cbn [Vector2d.x Vector2d.y].
    rewrite Hx1, Hy1, Hsx1. unfold mousePointTo.
    cbn [Vector2d.x Vector2d.y]. rewrite Huniform. unfold scaleBy.
    repeat split; field; scale_lra.
  - destruct (handleWheel_pointer stage p 100)
      as (s1 & Heq1 & Hsx1 & Hsy1 & Hx1 & Hy1).
    rewrite Heq1.
    destruct (handleWheel_pointer s1 p (-100))
      as (s2 & Heq2 & Hsx2 & Hsy2 & Hx2 & Hy2).
    exists s2. split; [exact Heq2|].
    rewrite Hout, limitZoom_within in Hsx1 by scale_lra.
    assert (Hback : Stage.scaleX s1 * scaleBy == Stage.scaleX stage)
      by (rewrite Hsx1; unfold scaleBy; field).
    rewrite Hin, limitZoom_within in Hsx2
      by (rewrite Hback; scale_lra).
    unfold stageEq. rewrite Hsy2, Hx2, Hy2, Hsx2.
    unfold mousePointTo. cbn [Vector2d.x Vector2d.y].
    rewrite Hx1, Hy1, Hsx1. unfold mousePointTo.
    cbn [Vector2d.x Vector2d.y]. rewrite Huniform. unfold scaleBy.
    repeat split; field; scale_lra.
Qed.

Lemma zoom_round_trip_witness :
  (exists stage',
      wheelEvents (Some identityStage)
        [wheelIn samplePointer; wheelOut samplePointer] = Some stage' /\
      stageEq stage' identityStage) /\
  (exists stage',
      wheelEvents (Some identityStage)
        [wheelOut samplePointer; wheelIn samplePointer] = Some stage' /\
      stageEq stage' identityStage).
Proof.
  assert (Huniform : Stage.scaleY identityStage == Stage.scaleX identityStage)
    by reflexivity.
  destruct (zoom_round_trip identityStage samplePointer Huniform)
    as [Hio Hoi].
  split; [apply Hio | apply Hoi]; simpl; scale_lra.
Defined.

(** *** Reaching the limits *)

Lemma zoomInFloor_pos (k : nat) : 0 < zoomInFloor k.
Proof.
  induction k as [|k IH]; simpl; [reflexivity|]. unfold scaleBy. lra.
Qed.

Lemma zoomInFloor_mono (n m : nat) :
  (n <= m)%nat -> zoomInFloor n <= zoomInFloor m.
Proof.
  induction 1 as [|m _ IH]; [apply Qle_refl|].
  simpl. pose proof (zoomInFloor_pos m). unfold scaleBy. lra.
Qed.

Lemma zoomOutCeiling_pos (k : nat) : 0 < zoomOutCeiling k.
Proof.
  induction k as [|k IH]; simpl; [reflexivity|]. scale_lra.
Qed.

Lemma zoomOutCeiling_mono (n m : nat) :
  (n <= m)%nat -> zoomOutCeiling m <= zoomOutCeiling n.
Proof.
  induction 1 as [|m _ IH]; [apply Qle_refl|].
  simpl. pose proof (zoomOutCeiling_pos m). scale_lra.
Qed.

Lemma zoomIn_steps (events : list WheelEvent) :
  Forall (fun e => pointerPosition e <> None /\ deltaY e <= 0) events ->
  forall (stage : Stage.t) (k : nat),
    0.1 <= Stage.scaleX stage <= 5 ->
    zoomInFloor k <= Stage.scaleX stage \/ 5 <= Stage.scaleX stage ->
    exists stage',
      wheelEvents (Some stage) events = Some stage' /\
      0.1 <= Stage.scaleX stage' <= 5 /\
      (zoomInFloor (k + List.length events) <= Stage.scaleX stage' \/
       5 <= Stage.scaleX stage').
Proof.
  unfold wheelEvents.
  induction 1 as [|e events [Hptr Hdy] _ IH]; intros stage k Hrange Hfloor;
    cbn [fold_left List.length].
  - exists stage. rewrite Nat.add_0_r. auto.
  - destruct (pointerPosition e) as [p|]; [|contradiction].
    destruct (handleWheel_pointer stage p (deltaY e))
      as (s1 & Heq & Hsx & _).
    rewrite Heq. rewrite (candidateScale_in _ _ Hdy) in Hsx.
    replace (k + S (List.length events))%nat
      with (S k + List.length events)%nat by lia.
    apply IH.
    + rewrite Hsx. apply limitZoom_range.
    + rewrite Hsx. cbn [zoomInFloor]. destruct Hrange as [Hlo Hhi].
      unfold limitZoom, Qgtb.
      destruct (Qltb (Stage.scaleX stage * scaleBy) 0.1) eqn:Hlow.
      * apply Qltb_lt in Hlow. unfold scaleBy in Hlow. lra.
      * destruct (Qltb 5 (Stage.scaleX stage * scaleBy)) eqn:Hhigh.
        -- right. apply Qle_refl.
        -- apply Qltb_ge in Hhigh. unfold scaleBy in *.
           destruct Hfloor as [Hf|Hf]; [left; lra | lra].
Qed.

Lemma zoomOut_steps (events : list WheelEvent) :
  Forall (fun e => pointerPosition e <> None /\ 0 < deltaY e) events ->
  forall (stage : Stage.t) (k : nat),
    0.1 <= Stage.scaleX stage <= 5 ->
    Stage.scaleX stage <= zoomOutCeiling k \/ Stage.scaleX stage <= 0.1 ->
    exists stage',
      wheelEvents (Some stage) events = Some stage' /\
      0.1 <= Stage.scaleX stage' <= 5 /\
      (Stage.scaleX stage' <= zoomOutCeiling (k + List.length events) \/
       Stage.scaleX stage' <= 0.1).
Proof.
  unfold wheelEvents.
  induction 1 as [|e events [Hptr Hdy] _ IH]; intros stage k Hrange Hceil;
    cbn [fold_left List.length].
  - exists stage. rewrite Nat.add_0_r. auto.
  - destruct (pointerPosition e) as [p|]; [|contradiction].
    destruct (handleWheel_pointer stage p (deltaY e))
      as (s1 & Heq & Hsx & _).
    rewrite Heq. rewrite (candidateScale_out _ _ Hdy) in Hsx.
    replace (k + S (List.length events))%nat
      with (S k + List.length events)%nat by lia.
    apply IH.
    + rewrite Hsx. apply limitZoom_range.
    + rewrite Hsx. cbn [zoomOutCeiling]. destruct Hrange as [Hlo Hhi].
      unfold limitZoom, Qgtb.
      destruct (Qltb (Stage.scaleX stage / scaleBy) 0.1) eqn:Hlow.
      * right. change (0.1 <= 0.1). apply Qle_refl.
      * apply Qltb_ge in Hlow.
        destruct (Qltb 5 (Stage.scaleX stage / scaleBy)) eqn:Hhigh.
        -- apply Qltb_lt in Hhigh. scale_lra.
        -- destruct Hceil as [Hc|Hc]; [left; scale_lra | scale_lra].
Qed.

(** X28. From any scale in [0.1, 5], forty-two wheel events in one direction
    (each with a pointer position) are enough to reach the limit of that
    direction, whatever the pointer positions and deltas: the scale is 5
    after at least 42 zoom-in events and 0.1 after at least 42 zoom-out
    events. *)
Theorem wheelEvents_reach_limit (stage : Stage.t) (events : list WheelEvent)
  (Hrange : 0.1 <= Stage.scaleX stage <= 5)
  (Hmany : (42 <= List.length events)%nat) :
  (Forall (fun e => pointerPosition e <> None /\ deltaY e <= 0) events ->
   exists stage',
     wheelEvents (Some stage) events = Some stage' /\
     Stage.scaleX stage' == 5) /\
  (Forall (fun e => pointerPosition e <> None /\ 0 < deltaY e) events ->
   exists stage',
     wheelEvents (Some stage) events = Some stage' /\
     Stage.scaleX stage' == 0.1).
Proof.
  split; intros Hall.
  - destruct (zoomIn_steps events Hall stage 0 Hrange)
      as (stage' & Heq & [Hlo Hhi] & Hfloor).
    { left. simpl. lra. }
    exists stage'. split; [exact Heq|].
    assert (Hbig : 5 < zoomInFloor 42) by (vm_compute; reflexivity).
    pose proof (zoomInFloor_mono 42 (0 + List.length events)
                  ltac:(simpl; exact Hmany)) as Hmono.
    destruct Hfloor as [Hf|Hf]; lra.
  - destruct (zoomOut_steps events Hall stage 0 Hrange)
      as (stage' & Heq & [Hlo Hhi] & Hceil).
    { left. simpl. lra. }
    exists stage'. split; [exact Heq|].
    assert (Hsmall : zoomOutCeiling 42 < 0.1) by (vm_compute; reflexivity).
    pose proof (zoomOutCeiling_mono 42 (0 + List.length events)
                  ltac:(simpl; exact Hmany)) as Hmono.
    destruct Hceil as [Hc|Hc]; lra.
Qed.

Lemma wheelEvents_reach_limit_witness :
  exists stage',
    wheelEvents (Some identityStage) (repeat (wheelIn samplePointer) 42)
      = Some stage' /\
    Stage.scaleX stage' == 5.
Proof.
  assert (Hrange : 0.1 <= Stage.scaleX identityStage <= 5)
    by (simpl; lra).
  assert (Hmany : (42 <= List.length (repeat (wheelIn samplePointer) 42))%nat)
    by (rewrite repeat_length; lia).
  apply (wheelEvents_reach_limit identityStage _ Hrange Hmany).
  apply Forall_forall. intros e He. apply repeat_spec in He. subst e.
  simpl. split; [discriminate | lra].
Defined.

(** ** Replacing the store *)

(** X3. A successful history load and a successful detect store exactly what
    the server sent, in its order, label, confidence and box untouched,
    under the ids of the successive [generateId] calls; nothing of the
    previous list is kept. The load makes [i] the current image and drops
    the chosen file; the detect makes the returned [image_id] the current
    image and keeps file and image source. *)
Theorem replace_store_from_server (gen : nat -> string) (i : Z)
  (data : list ServerDetection) (r : DetectResponse)
  (hist : option (list HistoryItem.t)) (st : AppState) :
  (let st' := loadHistoryItem gen i (Some data) st in
   map serverPart (detections st') = data /\
   map id (detections st') = map gen (seq 0 (List.length data)) /\
   currentImageId st' = Some i /\
   imageSrc st' = Some (imageUrl i) /\
   file st' = None) /\
  (file st <> None ->
   let st' := handleDetect gen (Some r) hist st in
   map serverPart (detections st') = r_detections r /\
   map id (detections st')
     = map gen (seq 0 (List.length (r_detections r))) /\
   currentImageId st' = Some (image_id r) /\
   imageSrc st' = imageSrc st /\
   file st' = file st).
Proof.
  split.
  - cbv zeta. unfold loadHistoryItem.
    cbn [detections currentImageId imageSrc file setIsLoading
         setImageDimensions setFile setDetections setImageSrc
         setCurrentImageId].
    destruct (mappedDetections_parts gen data) as [Hparts Hids].
    repeat split; assumption.
  - intros Hfile. cbv zeta. unfold handleDetect.
    destruct (file st) as [f|] eqn:Hf; [|contradiction].
    destruct (mappedDetections_parts gen (r_detections r))
      as [Hparts Hids].
    destruct hist; cbn; rewrite ?Hf; repeat split; assumption.
Qed.

Lemma replace_store_from_server_witness :
  let r := {| image_id := 7; r_detections := [serverPart detB] |} in
  map serverPart (detections (handleDetect twoIds (Some r) None sampleState))
  = [serverPart detB].
Proof.
  cbv zeta.
  assert (Hfile : file sampleState <> None) by discriminate.
  exact (proj1 (proj2 (replace_store_from_server twoIds 0 []
                         {| image_id := 7;
                            r_detections := [serverPart detB] |}
                         None sampleState) Hfile)).
Defined.
